(** * uganda-locations: fuzzy search over Uganda's administrative units

    A shallow embedding of [src/index.ts] and the properties of its search
    entry points, hierarchy accessors and multi-term ranking.

    Conventions of the embedding.
    - A JavaScript string is a [string]: one [ascii] per UTF-16 code unit,
      for code units below 256 (Latin-1).
    - A JavaScript number that carries a score is a rational [Q]; an array
      length, a term count or a result limit is an integer.  The arithmetic
      of the ranking is written with the operations and in the order of the
      source, so the equations below are those of the source expression by
      expression; rounding of IEEE doubles is not part of the model.
    - The five JSON collections under [./data] and the [fuse.js] matcher are
      not part of [src/index.ts]; they are taken as parameters ([Data],
      [FuseLibrary]).
    - A thrown exception is the [Throw] case of [Completion]. *)

From Stdlib Require Import ZArith QArith Qabs Qround Lia Lqa.
From Stdlib Require Import Strings.String Strings.Ascii Lists.List.
From Stdlib Require Import Sorting.Sorted Sorting.Permutation.
From Stdlib Require Import Numbers.DecimalString.
From stdpp Require Import strings gmap list.

Open Scope string_scope.

(** ** JavaScript strings *)

Module JsString.

(** [WhiteSpace] and [LineTerminator] code units below 256: the set that
    [String.prototype.trim] strips and that [\s] matches. *)
Definition isWhiteSpace (c : ascii) : bool :=
  let n := nat_of_ascii c in
  (((9 <=? n) && (n <=? 13)) || (n =? 32) || (n =? 160))%nat.

(** [toLowerCase] on one code unit below 256: the letters A-Z and the
    Latin-1 capitals 192-222 (215 is the multiplication sign). *)
Definition toLowerChar (c : ascii) : ascii :=
  let n := nat_of_ascii c in
  if (((65 <=? n) && (n <=? 90))
      || ((192 <=? n) && (n <=? 222) && negb (n =? 215)))%nat
  then ascii_of_nat (n + 32) else c.

(** Canonicalisation of a code unit under the [i] flag of a regular
    expression: its upper-case form.  The two Latin-1 letters whose capital
    lies beyond code unit 255 (181 and 255) are left as they are; like their
    capitals, they equal no canonicalised ASCII letter. *)
Definition canonicalize (c : ascii) : ascii :=
  let n := nat_of_ascii c in
  if (((97 <=? n) && (n <=? 122))
      || ((224 <=? n) && (n <=? 254) && negb (n =? 247)))%nat
  then ascii_of_nat (n - 32) else c.

Fixpoint toLowerCase (s : string) : string :=
  match s with
  | EmptyString => EmptyString
  | String c r => String (toLowerChar c) (toLowerCase r)
  end.

Fixpoint trimStart (s : string) : string :=
  match s with
  | EmptyString => EmptyString
  | String c r => if isWhiteSpace c then trimStart r else s
  end.

(** [trimEnd] keeps a character when it is not white space or when
    something other than white space follows it. *)
Fixpoint trimEnd (s : string) : string :=
  match s with
  | EmptyString => EmptyString
  | String c r =>
      match trimEnd r with
      | EmptyString => if isWhiteSpace c then EmptyString
                       else String c EmptyString
      | r' => String c r'
      end
  end.

Definition trim (s : string) : string := trimEnd (trimStart s).

Fixpoint startsWith (p s : string) : bool :=
  match p, s with
  | EmptyString, _ => true
  | String a p', String b s' => Ascii.eqb a b && startsWith p' s'
  | String _ _, EmptyString => false
  end.

(** [s.includes(sub)] *)
Fixpoint includes (s sub : string) : bool :=
  startsWith sub s
  || match s with
     | EmptyString => false
     | String _ r => includes r sub
     end.

Fixpoint drop (n : nat) (s : string) : string :=
  match n, s with
  | O, _ => s
  | S k, String _ r => drop k r
  | S _, EmptyString => EmptyString
  end.

Fixpoint rev_append (acc s : string) : string :=
  match acc with
  | EmptyString => s
  | String c r => rev_append r (String c s)
  end.

(** Truthiness of a string: only the empty string is falsy. *)
Definition truthy (s : string) : bool :=
  match s with EmptyString => false | String _ _ => true end.

End JsString.

(** ** The separator regular expression of [parseQuery]

    [/[,;]|\s+in\s+|\s+at\s+/i], matched at the head of a string.  Each
    function returns the number of code units the match consumes. *)

Module Separator.
Import JsString.

(** Length of the longest white-space run at the head: a greedy [\s+]
    takes all of it. *)
Fixpoint whiteSpaceRun (s : string) : nat :=
  match s with
  | EmptyString => O
  | String c r => if isWhiteSpace c then S (whiteSpaceRun r) else O
  end.

(** A literal word under the [i] flag: characters are compared after
    canonicalisation. *)
Fixpoint matchWord (w s : string) : bool :=
  match w, s with
  | EmptyString, _ => true
  | String a w', String b s' =>
      Ascii.eqb (canonicalize a) (canonicalize b) && matchWord w' s'
  | String _ _, EmptyString => false
  end.

(** [[,;]] *)
Definition matchPunct (s : string) : option nat :=
  match s with
  | String c _ =>
      if Ascii.eqb c "," || Ascii.eqb c ";" then Some 1%nat else None
  | EmptyString => None
  end.

(** [\s+w\s+] for a literal word [w].  The first [\s+] takes the whole
    run: the character after the run is not white space, so giving
    characters back cannot make [w] match. *)
Definition matchSpacedWord (w s : string) : option nat :=
  let n1 := whiteSpaceRun s in
  let s1 := drop n1 s in
  let n2 := whiteSpaceRun (drop (String.length w) s1) in
  if (0 <? n1)%nat && matchWord w s1 && (0 <? n2)%nat
  then Some (n1 + String.length w + n2)%nat
  else None.

(** The alternatives are tried in the order they are written. *)
Definition matchAt (s : string) : option nat :=
  match matchPunct s with
  | Some n => Some n
  | None =>
      match matchSpacedWord "in" s with
      | Some n => Some n
      | None => matchSpacedWord "at" s
      end
  end.

(** [s.split(separators)]: scan from the left; where the expression
    matches, close the current piece and resume after the match.
    [skip] counts the code units of a match still to be stepped over and
    [piece] holds the current piece in reverse. *)
Fixpoint splitFrom (skip : nat) (piece : string) (s : string)
  : list string :=
  match s with
  | EmptyString => [rev_append piece EmptyString]
  | String c r =>
      match skip with
      | S k => splitFrom k piece r
      | O =>
          match matchAt s with
          | Some n =>
              rev_append piece EmptyString
                :: splitFrom (Nat.pred n) EmptyString r
          | None => splitFrom O (String c piece) r
          end
      end
  end.

Definition split (s : string) : list string :=
  splitFrom O EmptyString s.

End Separator.

(** [parseQuery]: split on the separators, trim, drop empty terms. *)
Definition parseQuery (query : string) : list string :=
  List.filter (fun term => (0 <? String.length term)%nat)
    (List.map JsString.trim (Separator.split query)).

(** ** JavaScript arrays and numbers *)

Module JsArray.

(** [arr.slice(0, end)]: a negative [end] counts from the end of the
    array. *)
Definition slice0 {A : Type} (end_ : Z) (l : list A) : list A :=
  let len := Z.of_nat (List.length l) in
  let k := if (end_ <? 0)%Z then Z.max (len + end_) 0 else Z.min end_ len in
  firstn (Z.to_nat k) l.

(** [arr.sort(compareFn)], a stable sort: [x] is placed before the first
    element it does not have to follow. *)
Fixpoint insert {A : Type} (compareFn : A -> A -> Q) (x : A) (l : list A)
  : list A :=
  match l with
  | [] => [x]
  | y :: r =>
      if Qle_bool (compareFn x y) 0 then x :: l
      else y :: insert compareFn x r
  end.

Fixpoint sort {A : Type} (compareFn : A -> A -> Q) (l : list A) : list A :=
  match l with
  | [] => []
  | x :: r => insert compareFn x (sort compareFn r)
  end.

End JsArray.

Module JsNumber.

Fixpoint zeros (n : nat) : string :=
  match n with
  | O => EmptyString
  | S k => String "0" (zeros k)
  end.

(** [x.toFixed(fractionDigits)] for [|x| < 10^21], where the result is
    written in plain decimal digits: [n] is the integer nearest to
    [x * 10^f], the larger one on a tie. *)
Definition toFixed (x : Q) (fractionDigits : nat) : string :=
  let sign := if Qle_bool 0 x then EmptyString else "-" in
  let x := if Qle_bool 0 x then x else Qopp x in
  let n :=
    Qfloor (x * inject_Z (10 ^ Z.of_nat fractionDigits) + (1 # 2))%Q in
  let m := NilZero.string_of_uint (N.to_uint (Z.to_N n)) in
  let m := zeros (S fractionDigits - String.length m) ++ m in
  let k := String.length m in
  match fractionDigits with
  | O => sign ++ m
  | S _ =>
      sign ++ String.substring 0 (k - fractionDigits) m ++ "."
        ++ String.substring (k - fractionDigits) fractionDigits m
  end.

(** [score || 0] on an optional number: [undefined] and [0] are falsy. *)
Definition orZero (score : option Q) : Q :=
  match score with
  | Some x => if Qeq_bool x 0 then 0%Q else x
  | None => 0%Q
  end.

End JsNumber.

(** A value a result field can hold where the source and its readers
    disagree on the type. *)
Inductive JsValue : Type :=
| JsNumberV (x : Q)
| JsStringV (s : string).

(** Normal and abrupt completion of a call. *)
Inductive JsError : Type :=
| TypeError (message : string).

Inductive Completion (A : Type) : Type :=
| Return (value : A)
| Throw (error : JsError).
Arguments Return {A} value.
Arguments Throw {A} error.

(** ** Reference data *)

Module District.
Record t : Type := mk { id : string; name : string }.
End District.

Module County.
Record t : Type := mk { id : string; name : string; district : string }.
End County.

Module SubCounty.
Record t : Type := mk { id : string; name : string; county : string }.
End SubCounty.

Module Parish.
Record t : Type := mk { id : string; name : string; subcounty : string }.
End Parish.

Module Village.
Record t : Type := mk { id : string; name : string; parish : string }.
End Village.

(** The five imported collections. *)
Record Data : Type := {
  districts : list District.t;
  counties : list County.t;
  subCounties : list SubCounty.t;
  parishes : list Parish.t;
  villages : list Village.t
}.

(** [new Map()] filled by [forEach (x => map.set(x.id, x))]: a later entry
    with the same id replaces an earlier one. *)
Definition buildMap {A : Type} (key : A -> string) (l : list A)
  : gmap string A :=
  foldl (fun m x => <[key x := x]> m) ∅ l.

Definition districtMap (data : Data) : gmap string District.t :=
  buildMap District.id (districts data).
Definition countyMap (data : Data) : gmap string County.t :=
  buildMap County.id (counties data).
Definition subCountyMap (data : Data) : gmap string SubCounty.t :=
  buildMap SubCounty.id (subCounties data).
Definition parishMap (data : Data) : gmap string Parish.t :=
  buildMap Parish.id (parishes data).

(** ** The matcher *)

Record FuseOptions : Type := {
  keys : list string;
  threshold : Q;
  distance : Z;
  minMatchCharLength : Z;
  includeScore : bool;
  ignoreLocation : bool
}.

Definition fuseOptions : FuseOptions := {|
  keys := ["name"];
  threshold := 0.4%Q;
  distance := 100%Z;
  minMatchCharLength := 2%Z;
  includeScore := true;
  ignoreLocation := true
|}.

Record FuseResult (A : Type) : Type := {
  item : A;
  refIndex : nat;
  fuseScore : option Q
}.
Arguments item {A} _.
Arguments refIndex {A} _.
Arguments fuseScore {A} _.

(** [fuse.search(term, { limit })] of one instance. *)
Definition Fuse (A : Type) : Type := string -> Z -> list (FuseResult A).

(** [new Fuse(list, options)].  The second argument reads the key
    ["name"] of an item. *)
Definition FuseLibrary : Type :=
  forall A : Type, list A -> (A -> string) -> FuseOptions -> Fuse A.

(** ** Results *)

Inductive UnitType : Type :=
| DistrictT | CountyT | SubCountyT | ParishT | VillageT.

Definition typeName (t : UnitType) : string :=
  match t with
  | DistrictT => "district"
  | CountyT => "county"
  | SubCountyT => "subCounty"
  | ParishT => "parish"
  | VillageT => "village"
  end.

(** The names a hierarchy accessor returns; [None] is a key that is absent
    or holds [undefined]. *)
Module Hierarchy.
Record t : Type := mk {
  district : option string;
  county : option string;
  subCounty : option string;
  parish : option string;
  village : option string
}.
Definition empty : t := mk None None None None None.
End Hierarchy.

Module Chain.
Record t : Type := mk {
  districtId : option string;
  countyId : option string;
  subCountyId : option string;
  parishId : option string;
  villageId : option string
}.
Definition empty : t := mk None None None None None.
End Chain.

Module SearchResult.
Record t : Type := mk {
  type : UnitType;
  id : string;
  name : string;
  score : Q;
  matchedTerm : option string;
  hierarchy : Hierarchy.t
}.
End SearchResult.

(** What [exactSearchAdministrativeUnits] pushes: no score, no term. *)
Module ExactResult.
Record t : Type := mk {
  type : UnitType;
  id : string;
  name : string;
  hierarchy : Hierarchy.t
}.
End ExactResult.

Module Combined.
Record t : Type := mk {
  base : SearchResult.t;
  matchCount : Z;
  hierarchyBonus : Q;
  combinedScore : Q
}.
End Combined.

Module MatchInfo.
Record t : Type := mk {
  matchedTerms : Z;
  totalTerms : Z;
  confidence : JsValue
}.
End MatchInfo.

Module Ranked.
Record t : Type := mk {
  result : SearchResult.t;
  matchInfo : MatchInfo.t
}.
End Ranked.

Module TermResult.
Record t : Type := mk {
  term : string;
  matches : list SearchResult.t
}.
End TermResult.

(** [searchAdministrativeUnits] returns plain results for one term and
    ranked results otherwise. *)
Inductive SearchOutput : Type :=
| PlainResults (results : list SearchResult.t)
| RankedResults (results : list Ranked.t).

(** ** Hierarchy accessors *)

Section Hierarchies.

Variable data : Data.

Definition getDistrictHierarchy (districtId : string) : Hierarchy.t :=
  match districtMap data !! districtId with
  | Some district =>
      Hierarchy.mk (Some (District.name district)) None None None None
  | None => Hierarchy.empty
  end.

Definition getCountyHierarchy (countyId : string) : Hierarchy.t :=
  match countyMap data !! countyId with
  | None => Hierarchy.empty
  | Some county =>
      let district := districtMap data !! County.district county in
      Hierarchy.mk (District.name <$> district)
        (Some (County.name county)) None None None
  end.

Definition getSubCountyHierarchy (subCountyId : string) : Hierarchy.t :=
  match subCountyMap data !! subCountyId with
  | None => Hierarchy.empty
  | Some subCounty =>
      let county := countyMap data !! SubCounty.county subCounty in
      let district :=
        county ≫= fun c => districtMap data !! County.district c in
      Hierarchy.mk (District.name <$> district) (County.name <$> county)
        (Some (SubCounty.name subCounty)) None None
  end.

Definition getParishHierarchy (parishId : string) : Hierarchy.t :=
  match parishMap data !! parishId with
  | None => Hierarchy.empty
  | Some parish =>
      let subCounty := subCountyMap data !! Parish.subcounty parish in
      let county :=
        subCounty ≫= fun s => countyMap data !! SubCounty.county s in
      let district :=
        county ≫= fun c => districtMap data !! County.district c in
      Hierarchy.mk (District.name <$> district) (County.name <$> county)
        (SubCounty.name <$> subCounty) (Some (Parish.name parish)) None
  end.

Definition getVillageHierarchy (village : Village.t) : Hierarchy.t :=
  let parish := parishMap data !! Village.parish village in
  let subCounty :=
    parish ≫= fun p => subCountyMap data !! Parish.subcounty p in
  let county :=
    subCounty ≫= fun s => countyMap data !! SubCounty.county s in
  let district :=
    county ≫= fun c => districtMap data !! County.district c in
  Hierarchy.mk (District.name <$> district) (County.name <$> county)
    (SubCounty.name <$> subCounty) (Parish.name <$> parish)
    (Some (Village.name village)).

(** [getHierarchyChain(type, id)]: the [switch] on the type string, with
    its [default] case. *)
Definition getHierarchyChain (type : string) (id : string) : Chain.t :=
  if String.eqb type "district" then
    Chain.mk (Some id) None None None None
  else if String.eqb type "county" then
    match countyMap data !! id with
    | Some county =>
        Chain.mk (Some (County.district county)) (Some id) None None None
    | None => Chain.empty
    end
  else if String.eqb type "subCounty" then
    match subCountyMap data !! id with
    | None => Chain.empty
    | Some subCounty =>
        let county := countyMap data !! SubCounty.county subCounty in
        Chain.mk (County.district <$> county)
          (Some (SubCounty.county subCounty)) (Some id) None None
    end
  else if String.eqb type "parish" then
    match parishMap data !! id with
    | None => Chain.empty
    | Some parish =>
        let subCounty := subCountyMap data !! Parish.subcounty parish in
        let county :=
          subCounty ≫= fun s => countyMap data !! SubCounty.county s in
        Chain.mk (County.district <$> county)
          (SubCounty.county <$> subCounty)
          (Some (Parish.subcounty parish)) (Some id) None
    end
  else if String.eqb type "village" then
    match List.find (fun v => String.eqb (Village.id v) id)
            (villages data) with
    | None => Chain.empty
    | Some village =>
        let parish := parishMap data !! Village.parish village in
        let subCounty :=
          parish ≫= fun p => subCountyMap data !! Parish.subcounty p in
        let county :=
          subCounty ≫= fun s => countyMap data !! SubCounty.county s in
        Chain.mk (County.district <$> county)
          (SubCounty.county <$> subCounty)
          (Parish.subcounty <$> parish)
          (Some (Village.parish village)) (Some id)
    end
  else Chain.empty.

(** [a && a === b] on two optional identifiers: [a] has to be present and
    non-empty (truthy), and [b] the same string. *)
Definition sameTruthy (a b : option string) : bool :=
  match a, b with
  | Some x, Some y => JsString.truthy x && String.eqb x y
  | _, _ => false
  end.

Definition areRelated (result1 result2 : SearchResult.t) : bool :=
  let chain1 :=
    getHierarchyChain (typeName (SearchResult.type result1))
      (SearchResult.id result1) in
  let chain2 :=
    getHierarchyChain (typeName (SearchResult.type result2))
      (SearchResult.id result2) in
  sameTruthy (Chain.districtId chain1) (Chain.districtId chain2)
  || sameTruthy (Chain.countyId chain1) (Chain.countyId chain2)
  || sameTruthy (Chain.subCountyId chain1) (Chain.subCountyId chain2)
  || sameTruthy (Chain.parishId chain1) (Chain.parishId chain2).

End Hierarchies.

(** ** Search *)

Section Search.

Variable data : Data.
Variable newFuse : FuseLibrary.

Definition districtFuse : Fuse District.t :=
  newFuse District.t (districts data) District.name fuseOptions.
Definition countyFuse : Fuse County.t :=
  newFuse County.t (counties data) County.name fuseOptions.
Definition subCountyFuse : Fuse SubCounty.t :=
  newFuse SubCounty.t (subCounties data) SubCounty.name fuseOptions.
Definition parishFuse : Fuse Parish.t :=
  newFuse Parish.t (parishes data) Parish.name fuseOptions.
Definition villageFuse : Fuse Village.t :=
  newFuse Village.t (villages data) Village.name fuseOptions.

(** The five [forEach] loops push in this order, so [results] is the
    concatenation of the five mapped hit lists.  (The default of
    [maxResults], 50, is never used: both callers pass the argument.) *)
Definition fuzzySearchSingleTerm (term : string) (maxResults : Z)
  : list SearchResult.t :=
  List.map
    (fun result =>
       SearchResult.mk DistrictT (District.id (item result))
         (District.name (item result))
         (1 - JsNumber.orZero (fuseScore result))%Q (Some term)
         (getDistrictHierarchy data (District.id (item result))))
    (districtFuse term maxResults)
  ++ List.map
    (fun result =>
       SearchResult.mk CountyT (County.id (item result))
         (County.name (item result))
         (1 - JsNumber.orZero (fuseScore result))%Q (Some term)
         (getCountyHierarchy data (County.id (item result))))
    (countyFuse term maxResults)
  ++ List.map
    (fun result =>
       SearchResult.mk SubCountyT (SubCounty.id (item result))
         (SubCounty.name (item result))
         (1 - JsNumber.orZero (fuseScore result))%Q (Some term)
         (getSubCountyHierarchy data (SubCounty.id (item result))))
    (subCountyFuse term maxResults)
  ++ List.map
    (fun result =>
       SearchResult.mk ParishT (Parish.id (item result))
         (Parish.name (item result))
         (1 - JsNumber.orZero (fuseScore result))%Q (Some term)
         (getParishHierarchy data (Parish.id (item result))))
    (parishFuse term maxResults)
  ++ List.map
    (fun result =>
       SearchResult.mk VillageT (Village.id (item result))
         (Village.name (item result))
         (1 - JsNumber.orZero (fuseScore result))%Q (Some term)
         (getVillageHierarchy data (item result)))
    (villageFuse term maxResults).

(** [(a, b) => b.score - a.score] *)
Definition byScore (a b : SearchResult.t) : Q :=
  (SearchResult.score b - SearchResult.score a)%Q.

(** The comparator of the multi-term sort. *)
Definition byMatchCountThenScore (a b : Combined.t) : Q :=
  if negb (Combined.matchCount a =? Combined.matchCount b)%Z
  then inject_Z (Combined.matchCount b - Combined.matchCount a)%Z
  else (Combined.combinedScore b - Combined.combinedScore a)%Q.

(** The mutable locals of the body run for one first-term result. *)
Record Tally : Type := mkTally {
  matchCount : Z;
  totalScore : Q;
  hierarchyBonus : Q;
  relatedMatches : list SearchResult.t
}.

(** One iteration of [for (let i = 1; i < termResults.length; i++)]. *)
Definition scanPool (firstResult : SearchResult.t) (st : Tally)
    (other : TermResult.t) : Tally :=
  match List.find (fun r => areRelated data firstResult r)
          (TermResult.matches other) with
  | Some relatedMatch =>
      mkTally (matchCount st + 1)%Z
        (totalScore st + SearchResult.score relatedMatch)%Q
        1.5%Q
        (relatedMatches st ++ [relatedMatch])
  | None => st
  end.

Definition tally (termResults : list TermResult.t)
    (firstResult : SearchResult.t) : Tally :=
  List.fold_left (scanPool firstResult) (skipn 1 termResults)
    (mkTally 1%Z (SearchResult.score firstResult) 1.0%Q [firstResult]).

(** The body of [termResults[0].matches.forEach]: what is pushed onto
    [combinedResults] for [firstResult].  [n] is [terms.length]. *)
Definition combine (n : nat) (termResults : list TermResult.t)
    (firstResult : SearchResult.t) : Combined.t :=
  let st := tally termResults firstResult in
  let avgScore := (totalScore st / inject_Z (Z.of_nat n))%Q in
  let combinedScore :=
    (avgScore * hierarchyBonus st
     * (inject_Z (matchCount st) / inject_Z (Z.of_nat n)))%Q in
  Combined.mk firstResult (matchCount st) (hierarchyBonus st)
    combinedScore.

(** The final [map]: [matchCount], [hierarchyBonus], [combinedScore] and
    [matchedTerm] are destructured away, [matchInfo] is added. *)
Definition finalize (n : nat) (c : Combined.t) : Ranked.t :=
  let r := Combined.base c in
  Ranked.mk
    (SearchResult.mk (SearchResult.type r) (SearchResult.id r)
       (SearchResult.name r) (SearchResult.score r) None
       (SearchResult.hierarchy r))
    (MatchInfo.mk (Combined.matchCount c) (Z.of_nat n)
       (JsStringV (JsNumber.toFixed (Combined.combinedScore c) 3))).

Definition termResultsOf (terms : list string) : list TermResult.t :=
  List.map (fun term => TermResult.mk term (fuzzySearchSingleTerm term 30))
    terms.

Definition searchAdministrativeUnits (query : string) (maxResults : Z)
  : Completion SearchOutput :=
  let terms := parseQuery query in
  match terms with
  | [term] =>
      Return (PlainResults
        (JsArray.slice0 maxResults
           (JsArray.sort byScore (fuzzySearchSingleTerm term maxResults))))
  | _ =>
      let termResults := termResultsOf terms in
      (* termResults[0].matches *)
      match nth_error termResults 0 with
      | None =>
          Throw (TypeError
            "Cannot read properties of undefined (reading 'matches')")
      | Some first =>
          let combinedResults :=
            List.map (combine (List.length terms) termResults)
              (TermResult.matches first) in
          Return (RankedResults
            (List.map (finalize (List.length terms))
               (JsArray.slice0 maxResults
                  (JsArray.sort byMatchCountThenScore combinedResults))))
      end
  end.

(** One of the five [forEach] loops of the exact search. *)
Definition exactLevel {A : Type} (type : UnitType) (id name : A -> string)
    (hierarchy : A -> Hierarchy.t) (lowerQuery : string) (l : list A)
  : list ExactResult.t :=
  List.map (fun x => ExactResult.mk type (id x) (name x) (hierarchy x))
    (List.filter
       (fun x => JsString.includes (JsString.toLowerCase (name x))
                   lowerQuery)
       l).

Definition exactSearchAdministrativeUnits (query : string)
  : list ExactResult.t :=
  let lowerQuery := JsString.trim (JsString.toLowerCase query) in
  if negb (JsString.truthy lowerQuery) then []
  else
    exactLevel DistrictT District.id District.name
      (fun d => getDistrictHierarchy data (District.id d))
      lowerQuery (districts data)
    ++ exactLevel CountyT County.id County.name
      (fun c => getCountyHierarchy data (County.id c))
      lowerQuery (counties data)
    ++ exactLevel SubCountyT SubCounty.id SubCounty.name
      (fun s => getSubCountyHierarchy data (SubCounty.id s))
      lowerQuery (subCounties data)
    ++ exactLevel ParishT Parish.id Parish.name
      (fun p => getParishHierarchy data (Parish.id p))
      lowerQuery (parishes data)
    ++ exactLevel VillageT Village.id Village.name
      (getVillageHierarchy data) lowerQuery (villages data).

End Search.

(** ** A small data set and a reference matcher for the closed examples *)

Module Sample.

(** Village [v2] and [v3] name a parish that is not in the parish
    collection (a dangling parent reference). *)
Definition data : Data := {|
  districts := [District.mk "32" "Kampala"; District.mk "61" "Luwero"];
  counties := [County.mk "c1" "Nakawa Division" "32";
               County.mk "c2" "Kampala Central" "32";
               County.mk "c3" "Katikamu" "61"];
  subCounties := [SubCounty.mk "s1" "Nakawa" "c1";
                  SubCounty.mk "s2" "Nakawa" "c3"];
  parishes := [Parish.mk "p1" "Bugolobi" "s1"];
  villages := [Village.mk "v1" "Kasanga" "p1";
               Village.mk "v2" "Kasanga" "p9";
               Village.mk "v3" "Bukasa" "p9"]
|}.

Fixpoint hitsFrom {A : Type} (name : A -> string) (term : string)
    (i : nat) (l : list A) : list (FuseResult A) :=
  match l with
  | [] => []
  | x :: r =>
      let lowerName := JsString.toLowerCase (name x) in
      let lowerTerm := JsString.toLowerCase term in
      if String.eqb lowerName lowerTerm
      then Build_FuseResult A x i (Some 0%Q) :: hitsFrom name term (S i) r
      else if (2 <=? String.length term)%nat
              && JsString.startsWith lowerTerm lowerName
      then Build_FuseResult A x i (Some 0.25%Q)
             :: hitsFrom name term (S i) r
      else hitsFrom name term (S i) r
  end.

(** A name equal to the term up to case is a hit at dissimilarity 0, a
    name that starts with a term of two or more characters a hit at
    0.25; hits come in collection order and a limit that is not negative
    cuts the list. *)
Definition prefixFuse : FuseLibrary :=
  fun A l name _ term limit =>
    let hits := hitsFrom name term 0 l in
    if (limit <? 0)%Z then hits else firstn (Z.to_nat limit) hits.

(** The hits of [hitsFrom] with other scores: [exact] for a name equal
    to the term up to case, [partial] for a name the term starts. *)
Fixpoint hitsScored {A : Type} (exact partial : Q) (name : A -> string)
    (term : string) (i : nat) (l : list A) : list (FuseResult A) :=
  match l with
  | [] => []
  | x :: r =>
      let lowerName := JsString.toLowerCase (name x) in
      let lowerTerm := JsString.toLowerCase term in
      if String.eqb lowerName lowerTerm
      then Build_FuseResult A x i (Some exact)
             :: hitsScored exact partial name term (S i) r
      else if (2 <=? String.length term)%nat
              && JsString.startsWith lowerTerm lowerName
      then Build_FuseResult A x i (Some partial)
             :: hitsScored exact partial name term (S i) r
      else hitsScored exact partial name term (S i) r
  end.

(** [Number.EPSILON], the difference between 1 and the next number. *)
Definition epsilon : Q := 1 # (2 ^ 52).

(** A matcher that accepts the same names as [prefixFuse] and scores a
    hit on its own scale, which the threshold of the options does not
    bound: [Number.EPSILON] for a name equal to the term up to case and
    0.46 for a name that starts with the term. *)
Definition scaledFuse : FuseLibrary :=
  fun A l name _ term limit =>
    let hits := hitsScored epsilon 0.46 name term 0 l in
    if (limit <? 0)%Z then hits else firstn (Z.to_nat limit) hits.

(** The results the matcher yields for villages [v2] and [v3]. *)
Definition kasangaV2 : SearchResult.t :=
  SearchResult.mk VillageT "v2" "Kasanga" 1 (Some "Kasanga")
    (getVillageHierarchy data (Village.mk "v2" "Kasanga" "p9")).
Definition bukasaV3 : SearchResult.t :=
  SearchResult.mk VillageT "v3" "Bukasa" 1 (Some "Bukasa")
    (getVillageHierarchy data (Village.mk "v3" "Bukasa" "p9")).

(** The same collections without the two villages whose parish is
    missing: every parent reference resolves. *)
Definition tidy : Data := {|
  districts := districts data;
  counties := counties data;
  subCounties := subCounties data;
  parishes := parishes data;
  villages := [Village.mk "v1" "Kasanga" "p1"]
|}.

End Sample.

(** * Vocabulary of the statements *)

(** The query is empty or consists of white space only. *)
Fixpoint isBlank (s : string) : bool :=
  match s with
  | EmptyString => true
  | String c r => JsString.isWhiteSpace c && isBlank r
  end.

(** The chain of a search result, as [areRelated] computes it. *)
Definition chainOf (data : Data) (r : SearchResult.t) : Chain.t :=
  getHierarchyChain data (typeName (SearchResult.type r))
    (SearchResult.id r).

(** Two chains hold the same identifier at one level (the level is given
    by its projection). *)
Definition sharesId (level : Chain.t -> option string) (c1 c2 : Chain.t)
  : Prop :=
  exists i, level c1 = Some i /\ level c2 = Some i.

(** The same, for an identifier that is not the empty string. *)
Definition sharesNonEmptyId (level : Chain.t -> option string)
    (c1 c2 : Chain.t) : Prop :=
  exists i, i <> EmptyString /\ level c1 = Some i /\ level c2 = Some i.

(** Relatedness in the words of the specification: a common identifier at
    the district, county or sub-county level. *)
Definition relatedUpToSubCounty (c1 c2 : Chain.t) : Prop :=
  sharesId Chain.districtId c1 c2
  \/ sharesId Chain.countyId c1 c2
  \/ sharesId Chain.subCountyId c1 c2.

(** Relatedness as the code decides it: a common non-empty identifier at
    the district, county, sub-county or parish level. *)
Definition relatedUpToParish (c1 c2 : Chain.t) : Prop :=
  sharesNonEmptyId Chain.districtId c1 c2
  \/ sharesNonEmptyId Chain.countyId c1 c2
  \/ sharesNonEmptyId Chain.subCountyId c1 c2
  \/ sharesNonEmptyId Chain.parishId c1 c2.

(** The identifier is known at the level: the lookup the code performs
    for it succeeds. *)
Definition known (data : Data) (t : UnitType) (id : string) : Prop :=
  match t with
  | DistrictT => is_Some (districtMap data !! id)
  | CountyT => is_Some (countyMap data !! id)
  | SubCountyT => is_Some (subCountyMap data !! id)
  | ParishT => is_Some (parishMap data !! id)
  | VillageT =>
      is_Some (List.find (fun v => String.eqb (Village.id v) id)
                 (villages data))
  end.

(** The field of a chain that belongs to a level, and the levels counted
    from the district (1) down to the village (5). *)
Definition ownId (t : UnitType) : Chain.t -> option string :=
  match t with
  | DistrictT => Chain.districtId
  | CountyT => Chain.countyId
  | SubCountyT => Chain.subCountyId
  | ParishT => Chain.parishId
  | VillageT => Chain.villageId
  end.

Definition rank (t : UnitType) : nat :=
  match t with
  | DistrictT => 1
  | CountyT => 2
  | SubCountyT => 3
  | ParishT => 4
  | VillageT => 5
  end.

(** Parent links: the parent identifier recorded for a unit, if the unit
    resolves. *)
Definition countyParent (data : Data) (id : string) : option string :=
  County.district <$> countyMap data !! id.
Definition subCountyParent (data : Data) (id : string) : option string :=
  SubCounty.county <$> subCountyMap data !! id.
Definition parishParent (data : Data) (id : string) : option string :=
  Parish.subcounty <$> parishMap data !! id.
Definition villageParent (data : Data) (id : string) : option string :=
  Village.parish
    <$> List.find (fun v => String.eqb (Village.id v) id) (villages data).

(** The chain in the words of the specification: start at the unit and
    follow parent links towards the district; a link that does not resolve
    ends the walk. *)
Definition walkUp (data : Data) (t : UnitType) (id : string) : Chain.t :=
  match t with
  | DistrictT => Chain.mk (Some id) None None None None
  | CountyT => Chain.mk (countyParent data id) (Some id) None None None
  | SubCountyT =>
      let c := subCountyParent data id in
      Chain.mk (c ≫= countyParent data) c (Some id) None None
  | ParishT =>
      let s := parishParent data id in
      let c := s ≫= subCountyParent data in
      Chain.mk (c ≫= countyParent data) c s (Some id) None
  | VillageT =>
      let p := villageParent data id in
      let s := p ≫= parishParent data in
      let c := s ≫= subCountyParent data in
      Chain.mk (c ≫= countyParent data) c s p (Some id)
  end.

(** Every level of the chain above the unit's own is what the parent link
    of the level below it gives. *)
Definition linkedAbove (data : Data) (t : UnitType) (c : Chain.t) : Prop :=
  (4 < rank t -> Chain.parishId c = Chain.villageId c ≫= villageParent data)
  /\ (3 < rank t ->
      Chain.subCountyId c = Chain.parishId c ≫= parishParent data)
  /\ (2 < rank t ->
      Chain.countyId c = Chain.subCountyId c ≫= subCountyParent data)
  /\ (1 < rank t ->
      Chain.districtId c = Chain.countyId c ≫= countyParent data).

(** The chain has an identifier at the unit's level and at every level
    above it. *)
Definition completeFrom (t : UnitType) (c : Chain.t) : Prop :=
  is_Some (Chain.districtId c)
  /\ (2 <= rank t -> is_Some (Chain.countyId c))
  /\ (3 <= rank t -> is_Some (Chain.subCountyId c))
  /\ (4 <= rank t -> is_Some (Chain.parishId c))
  /\ (5 <= rank t -> is_Some (Chain.villageId c)).

Definition hasKey {A : Type} (m : gmap string A) (k : string) : bool :=
  match m !! k with Some _ => true | None => false end.

(** Well-formed reference data: the parent reference of every row is the
    identifier of a row of the level above. *)
Definition wellFormed (data : Data) : bool :=
  forallb (fun c => hasKey (districtMap data) (County.district c))
    (counties data)
  && forallb (fun s => hasKey (countyMap data) (SubCounty.county s))
       (subCounties data)
  && forallb (fun p => hasKey (subCountyMap data) (Parish.subcounty p))
       (parishes data)
  && forallb (fun v => hasKey (parishMap data) (Village.parish v))
       (villages data).

(** The call returns, and what it returns is the empty sequence. *)
Definition returnsEmpty (out : Completion SearchOutput) : Prop :=
  out = Return (PlainResults []) \/ out = Return (RankedResults []).

(** Orders of the two result lists: by similarity, descending; and by
    match count, descending, then combined score, descending. *)
Definition scoreDescending (a b : SearchResult.t) : Prop :=
  (SearchResult.score b <= SearchResult.score a)%Q.

Definition matchCountThenScoreDescending (a b : Combined.t) : Prop :=
  (Combined.matchCount b < Combined.matchCount a)%Z
  \/ (Combined.matchCount a = Combined.matchCount b
      /\ (Combined.combinedScore b <= Combined.combinedScore a)%Q).

Definition matchedTermsDescending (a b : Ranked.t) : Prop :=
  (MatchInfo.matchedTerms (Ranked.matchInfo b)
   <= MatchInfo.matchedTerms (Ranked.matchInfo a))%Z.

(** [combinedResults] as the multi-term branch has filled it when the
    [forEach] over the first term's matches is done. *)
Definition combinedResults (data : Data) (newFuse : FuseLibrary)
    (terms : list string) : list Combined.t :=
  match terms with
  | [] => []
  | t1 :: _ =>
      List.map
        (combine data (List.length terms) (termResultsOf data newFuse terms))
        (fuzzySearchSingleTerm data newFuse t1 30)
  end.

(** The ranking in the words of the specification.  For a seed and the
    pools of the later terms, in order: the candidate a pool contributes is
    the first one in it that is related to the seed, if there is one. *)
Definition firstRelated (data : Data) (seed : SearchResult.t)
    (pool : list SearchResult.t) : option SearchResult.t :=
  List.find (fun r => areRelated data seed r) pool.

Fixpoint contributions (data : Data) (seed : SearchResult.t)
    (pools : list (list SearchResult.t)) : list SearchResult.t :=
  match pools with
  | [] => []
  | pool :: later =>
      match firstRelated data seed pool with
      | Some r => r :: contributions data seed later
      | None => contributions data seed later
      end
  end.

(** One for the seed and one for every contributing pool. *)
Definition seedMatchCount (data : Data) (seed : SearchResult.t)
    (pools : list (list SearchResult.t)) : Z :=
  1 + Z.of_nat (List.length (contributions data seed pools)).

(** The seed's similarity, then each contribution's added in pool order. *)
Definition seedTotalScore (data : Data) (seed : SearchResult.t)
    (pools : list (list SearchResult.t)) : Q :=
  List.fold_left (fun acc r => (acc + SearchResult.score r)%Q)
    (contributions data seed pools) (SearchResult.score seed).

(** 1.5 as soon as one pool contributes, 1.0 otherwise. *)
Definition seedHierarchyBonus (data : Data) (seed : SearchResult.t)
    (pools : list (list SearchResult.t)) : Q :=
  match contributions data seed pools with
  | [] => 1.0%Q
  | _ :: _ => 1.5%Q
  end.

Definition seedCombinedScore (data : Data) (n : nat) (seed : SearchResult.t)
    (pools : list (list SearchResult.t)) : Q :=
  (seedTotalScore data seed pools / inject_Z (Z.of_nat n)
   * seedHierarchyBonus data seed pools
   * (inject_Z (seedMatchCount data seed pools) / inject_Z (Z.of_nat n)))%Q.

Definition rankedSeed (data : Data) (n : nat)
    (pools : list (list SearchResult.t)) (seed : SearchResult.t)
  : Combined.t :=
  Combined.mk seed (seedMatchCount data seed pools)
    (seedHierarchyBonus data seed pools)
    (seedCombinedScore data n seed pools).

(** The pool of a term in a multi-term query. *)
Definition poolOf (data : Data) (newFuse : FuseLibrary) (term : string)
  : list SearchResult.t :=
  fuzzySearchSingleTerm data newFuse term 30.

(** A result without its [matchedTerm] key. *)
Definition withoutMatchedTerm (r : SearchResult.t) : SearchResult.t :=
  SearchResult.mk (SearchResult.type r) (SearchResult.id r)
    (SearchResult.name r) (SearchResult.score r) None
    (SearchResult.hierarchy r).

(** What the code attaches to a ranked seed. *)
Definition rankedAs (n : nat) (c : Combined.t) (r : Ranked.t) : Prop :=
  Ranked.result r = withoutMatchedTerm (Combined.base c)
  /\ MatchInfo.matchedTerms (Ranked.matchInfo r) = Combined.matchCount c
  /\ MatchInfo.totalTerms (Ranked.matchInfo r) = Z.of_nat n
  /\ (exists s, MatchInfo.confidence (Ranked.matchInfo r) = JsStringV s)
  /\ ((Qabs (Combined.combinedScore c) < inject_Z (10 ^ 21))%Q ->
      MatchInfo.confidence (Ranked.matchInfo r)
      = JsStringV (JsNumber.toFixed (Combined.combinedScore c) 3)).

(** What the specification says is attached: the seed as it is, and the
    combined score as a number. *)
Definition seedPlusMatchInfo (n : nat) (c : Combined.t) (r : Ranked.t)
  : Prop :=
  Ranked.result r = Combined.base c
  /\ MatchInfo.matchedTerms (Ranked.matchInfo r) = Combined.matchCount c
  /\ MatchInfo.totalTerms (Ranked.matchInfo r) = Z.of_nat n
  /\ MatchInfo.confidence (Ranked.matchInfo r)
     = JsNumberV (Combined.combinedScore c).

(** Modelled from the spec: the [fuse.js] matcher is not under [src/].
    An index returns the top-K names (section 4.2), at most [limit] hits
    for a limit that is not negative. *)
Definition respectsLimit (newFuse : FuseLibrary) : Prop :=
  forall (A : Type) (l : list A) (name : A -> string) term limit,
    (0 <= limit)%Z ->
    (Z.of_nat (List.length (newFuse A l name fuseOptions term limit))
     <= limit)%Z.

(** The result reports a hit of a matcher instance for the term: it has
    the name of the hit's item and, as its score, 1 minus the hit's. *)
Definition reportsHit (newFuse : FuseLibrary) (term : string) (limit : Z)
    (r : SearchResult.t) (d : option Q) : Prop :=
  exists (A : Type) (l : list A) (name : A -> string) (h : FuseResult A),
    In h (newFuse A l name fuseOptions term limit)
    /\ fuseScore h = d
    /\ SearchResult.name r = name (item h)
    /\ SearchResult.score r = (1 - JsNumber.orZero d)%Q.

(** The similarity [index.ts] computes for a hit, and the similarities of
    all the hits the five matcher instances return for a term, in the
    order of the five loops. *)
Definition hitSimilarity {A : Type} (h : FuseResult A) : Q :=
  (1 - JsNumber.orZero (fuseScore h))%Q.

Definition similaritiesOfHits (data : Data) (newFuse : FuseLibrary)
    (term : string) (limit : Z) : list Q :=
  List.map hitSimilarity (districtFuse data newFuse term limit)
  ++ List.map hitSimilarity (countyFuse data newFuse term limit)
  ++ List.map hitSimilarity (subCountyFuse data newFuse term limit)
  ++ List.map hitSimilarity (parishFuse data newFuse term limit)
  ++ List.map hitSimilarity (villageFuse data newFuse term limit).

(** Some code unit of the string satisfies [p]. *)
Fixpoint anyChar (p : ascii -> bool) (s : string) : bool :=
  match s with
  | EmptyString => false
  | String c r => p c || anyChar p r
  end.

(** The two separator characters. *)
Definition isPunct (c : ascii) : bool :=
  Ascii.eqb c "," || Ascii.eqb c ";".

(** The query of the exact search as it is compared: lower-cased, then
    trimmed. *)
Definition lowerQueryOf (query : string) : string :=
  JsString.trim (JsString.toLowerCase query).

(** A name matches the exact search when its lower-case form holds the
    compared query. *)
Definition nameMatches (lowerQuery name : string) : bool :=
  JsString.includes (JsString.toLowerCase name) lowerQuery.

(** The entries the exact search makes for a row of each collection. *)
Definition districtEntry (data : Data) (d : District.t) : ExactResult.t :=
  ExactResult.mk DistrictT (District.id d) (District.name d)
    (getDistrictHierarchy data (District.id d)).
Definition countyEntry (data : Data) (c : County.t) : ExactResult.t :=
  ExactResult.mk CountyT (County.id c) (County.name c)
    (getCountyHierarchy data (County.id c)).
Definition subCountyEntry (data : Data) (x : SubCounty.t) : ExactResult.t :=
  ExactResult.mk SubCountyT (SubCounty.id x) (SubCounty.name x)
    (getSubCountyHierarchy data (SubCounty.id x)).
Definition parishEntry (data : Data) (x : Parish.t) : ExactResult.t :=
  ExactResult.mk ParishT (Parish.id x) (Parish.name x)
    (getParishHierarchy data (Parish.id x)).
Definition villageEntry (data : Data) (v : Village.t) : ExactResult.t :=
  ExactResult.mk VillageT (Village.id v) (Village.name v)
    (getVillageHierarchy data v).

(** Levels in the order district, county, sub-county, parish, village. *)
Definition exactLevelOrdered (a b : ExactResult.t) : Prop :=
  (rank (ExactResult.type a) <= rank (ExactResult.type b))%nat.

(** A hierarchy with the name of one more level filled in. *)
Definition setCounty (h : Hierarchy.t) (n : string) : Hierarchy.t :=
  Hierarchy.mk (Hierarchy.district h) (Some n) (Hierarchy.subCounty h)
    (Hierarchy.parish h) (Hierarchy.village h).
Definition setSubCounty (h : Hierarchy.t) (n : string) : Hierarchy.t :=
  Hierarchy.mk (Hierarchy.district h) (Hierarchy.county h) (Some n)
    (Hierarchy.parish h) (Hierarchy.village h).
Definition setParish (h : Hierarchy.t) (n : string) : Hierarchy.t :=
  Hierarchy.mk (Hierarchy.district h) (Hierarchy.county h)
    (Hierarchy.subCounty h) (Some n) (Hierarchy.village h).
Definition setVillage (h : Hierarchy.t) (n : string) : Hierarchy.t :=
  Hierarchy.mk (Hierarchy.district h) (Hierarchy.county h)
    (Hierarchy.subCounty h) (Hierarchy.parish h) (Some n).

(** The name recorded for an identifier at each level, if it resolves. *)
Definition districtName (data : Data) (id : string) : option string :=
  District.name <$> districtMap data !! id.
Definition countyName (data : Data) (id : string) : option string :=
  County.name <$> countyMap data !! id.
Definition subCountyName (data : Data) (id : string) : option string :=
  SubCounty.name <$> subCountyMap data !! id.
Definition parishName (data : Data) (id : string) : option string :=
  Parish.name <$> parishMap data !! id.
Definition villageName (data : Data) (id : string) : option string :=
  Village.name
    <$> List.find (fun v => String.eqb (Village.id v) id) (villages data).

(** The names of the units a chain identifies, level by level. *)
Definition namesOfChain (data : Data) (c : Chain.t) : Hierarchy.t :=
  Hierarchy.mk (Chain.districtId c ≫= districtName data)
    (Chain.countyId c ≫= countyName data)
    (Chain.subCountyId c ≫= subCountyName data)
    (Chain.parishId c ≫= parishName data)
    (Chain.villageId c ≫= villageName data).

(** Order of the single-term results: by similarity, descending, and for
    equal similarity by level, district first. *)
Definition scoreThenLevel (a b : SearchResult.t) : Prop :=
  (SearchResult.score b < SearchResult.score a)%Q
  \/ ((SearchResult.score a == SearchResult.score b)%Q
      /\ (rank (SearchResult.type a) <= rank (SearchResult.type b))%nat).

(** The number of entries [slice(0, end)] keeps of [len]. *)
Definition keptBySlice (end_ : Z) (len : nat) : nat :=
  Z.to_nat (if (end_ <? 0)%Z then Z.max (Z.of_nat len + end_) 0
            else Z.min end_ (Z.of_nat len)).

(** Every candidate of the pools of the given terms has a similarity
    between 0 and 1. *)
Definition poolScoresInUnit (data : Data) (newFuse : FuseLibrary)
    (terms : list string) : Prop :=
  forall term r,
    In term terms -> In r (poolOf data newFuse term) ->
    (0 <= SearchResult.score r)%Q /\ (SearchResult.score r <= 1)%Q.

(** The pool holds a candidate related to the seed. *)
Definition hasRelated (data : Data) (seed : SearchResult.t)
    (pool : list SearchResult.t) : bool :=
  List.existsb (fun r => areRelated data seed r) pool.

(** A word: not empty, without white space, comma or semicolon. *)
Definition isWord (s : string) : bool :=
  negb (String.eqb s EmptyString)
  && negb (anyChar JsString.isWhiteSpace s)
  && negb (anyChar isPunct s).

(** Not empty and made of white space only. *)
Definition isSpacing (s : string) : bool :=
  negb (String.eqb s EmptyString) && isBlank s.

(** No separator matches at any position of [p] when [p] is followed by
    [ctx]. *)
Definition noSeparatorIn (p ctx : string) : Prop :=
  forall u v,
    p = u ++ v -> v <> EmptyString -> Separator.matchAt (v ++ ctx) = None.

(** * Properties *)

(** ** The model on small inputs *)

Example parseQuery_in : parseQuery "Nakawa in Kampala" = ["Nakawa"; "Kampala"].
Proof. reflexivity. Qed.

Example parseQuery_comma :
  parseQuery "Nakawa, Kampala" = ["Nakawa"; "Kampala"].
Proof. reflexivity. Qed.

Example parseQuery_at_upper :
  parseQuery "Nakawa  AT Kampala;Luwero" = ["Nakawa"; "Kampala"; "Luwero"].
Proof. reflexivity. Qed.

(** ["in"] inside or at the edge of a word is not a separator. *)
Example parseQuery_word_edges :
  parseQuery "Tin at  x" = ["Tin"; "x"]
  /\ parseQuery "in Kampala" = ["in Kampala"]
  /\ parseQuery "Kampala in" = ["Kampala in"].
Proof. repeat split. Qed.

Example parseQuery_no_term :
  parseQuery "" = [] /\ parseQuery " , ; " = [] /\ parseQuery " in " = [].
Proof. repeat split. Qed.

Example toFixed_small :
  JsNumber.toFixed (3 # 16) 3 = "0.188"
  /\ JsNumber.toFixed (1 # 9) 3 = "0.111"
  /\ JsNumber.toFixed 1.5 3 = "1.500"
  /\ JsNumber.toFixed 0 3 = "0.000"
  /\ JsNumber.toFixed (- (1 # 3)) 3 = "-0.333"
  /\ JsNumber.toFixed 12.3456 2 = "12.35".
Proof. repeat split. Qed.

Example slice0_small :
  JsArray.slice0 2 [1; 2; 3]%nat = [1; 2]%nat
  /\ JsArray.slice0 0 [1; 2; 3]%nat = []
  /\ JsArray.slice0 (-1) [1; 2; 3]%nat = [1; 2]%nat
  /\ JsArray.slice0 (-5) [1; 2; 3]%nat = []
  /\ JsArray.slice0 7 [1; 2; 3]%nat = [1; 2; 3]%nat.
Proof. repeat split. Qed.

(** The sort is stable: of two entries with the same key the earlier
    stays first. *)
Example sort_small :
  JsArray.sort (fun a b : Z * string => inject_Z (fst b - fst a))
    [(1, "a"); (3, "b"); (1, "c"); (3, "d"); (2, "e")]%Z
  = [(3, "b"); (3, "d"); (2, "e"); (1, "a"); (1, "c")]%Z.
Proof. reflexivity. Qed.

Example exactSearch_small :
  List.map ExactResult.id (exactSearchAdministrativeUnits Sample.data " NAK ")
  = ["c1"; "s1"; "s2"].
Proof. reflexivity. Qed.

(** ** Blank queries *)

Module BlankFacts.
Import JsString Separator.

Lemma whiteSpace_not_punct c :
  isWhiteSpace c = true -> (Ascii.eqb c "," || Ascii.eqb c ";") = false.
Proof.
  destruct c as [[] [] [] [] [] [] [] []]; vm_compute; congruence.
Qed.

Lemma whiteSpace_toLowerChar c :
  isWhiteSpace (toLowerChar c) = isWhiteSpace c.
Proof. destruct c as [[] [] [] [] [] [] [] []]; reflexivity. Qed.

Lemma isBlank_toLowerCase s : isBlank (toLowerCase s) = isBlank s.
Proof.
  induction s as [|c r IH]; simpl; [reflexivity|].
  now rewrite whiteSpace_toLowerChar, IH.
Qed.

Lemma isBlank_rev_append a b :
  isBlank a = true -> isBlank b = true -> isBlank (rev_append a b) = true.
Proof.
  revert b. induction a as [|c r IH]; simpl; intros b Ha Hb; [exact Hb|].
  apply andb_prop in Ha as [Hc Hr]. apply IH; [exact Hr|].
  simpl. now rewrite Hc, Hb.
Qed.

Lemma trimStart_blank s : isBlank s = true -> trimStart s = EmptyString.
Proof.
  induction s as [|c r IH]; simpl; [reflexivity|].
  intros H. apply andb_prop in H as [Hc Hr]. rewrite Hc. now apply IH.
Qed.

Lemma trim_blank s : isBlank s = true -> trim s = EmptyString.
Proof. intros H. unfold trim. now rewrite trimStart_blank. Qed.

(** A white-space run that reaches the end of the string leaves nothing
    for the word of a separator. *)
Lemma drop_run_blank s :
  isBlank s = true -> drop (whiteSpaceRun s) s = EmptyString.
Proof.
  induction s as [|c r IH]; simpl; [reflexivity|].
  intros H. apply andb_prop in H as [Hc Hr]. rewrite Hc. simpl.
  now apply IH.
Qed.

Lemma matchSpacedWord_blank c w s :
  isBlank s = true -> matchSpacedWord (String c w) s = None.
Proof.
  intros H. unfold matchSpacedWord. rewrite (drop_run_blank s H).
  simpl. now rewrite andb_false_r.
Qed.

Lemma matchAt_blank s : isBlank s = true -> matchAt s = None.
Proof.
  intros H. unfold matchAt.
  assert (matchPunct s = None) as ->.
  { destruct s as [|c r]; [reflexivity|]. simpl in *.
    apply andb_prop in H as [Hc _].
    now rewrite (whiteSpace_not_punct c Hc). }
  now rewrite !matchSpacedWord_blank.
Qed.

(** No separator matches inside a blank string: [split] returns the
    string as its one piece. *)
Lemma splitFrom_blank s piece :
  isBlank piece = true -> isBlank s = true ->
  exists t, splitFrom 0 piece s = [t] /\ isBlank t = true.
Proof.
  revert piece. induction s as [|c r IH]; intros piece Hp Hs.
  - simpl. eexists. split; [reflexivity|].
    now apply isBlank_rev_append.
  - assert (matchAt (String c r) = None) as Hm by now apply matchAt_blank.
    simpl in Hs. apply andb_prop in Hs as [Hc Hr].
    cbn [splitFrom]. rewrite Hm.
    apply IH; [|exact Hr]. simpl. now rewrite Hc, Hp.
Qed.

Lemma parseQuery_blank query :
  isBlank query = true -> parseQuery query = [].
Proof.
  intros H. unfold parseQuery, split.
  destruct (splitFrom_blank query EmptyString eq_refl H) as (t & -> & Ht).
  simpl. now rewrite (trim_blank t Ht).
Qed.

End BlankFacts.

(** The search throws exactly when the query parses to no term at all. *)
Lemma search_throws_iff data newFuse query maxResults :
  (exists e, searchAdministrativeUnits data newFuse query maxResults
             = Throw e)
  <-> parseQuery query = [].
Proof.
  unfold searchAdministrativeUnits.
  destruct (parseQuery query) as [|t1 [|t2 rest]]; simpl.
  - split; [reflexivity|]. intros _. eexists. reflexivity.
  - split; [intros [e He]; discriminate | discriminate].
  - split; [intros [e He]; discriminate | discriminate].
Qed.

(** C1 (the code at the failing inputs).  On every blank query the exact
    search returns the empty list, as the claim says, but the fuzzy search
    does not: no term is parsed, [termResults] is empty and reading
    [termResults[0].matches] throws a [TypeError]. *)
Theorem search_blank_query_throws data newFuse query maxResults :
  isBlank query = true ->
  exactSearchAdministrativeUnits data query = []
  /\ searchAdministrativeUnits data newFuse query maxResults
     = Throw (TypeError
         "Cannot read properties of undefined (reading 'matches')").
Proof.
  intros H. split.
  - unfold exactSearchAdministrativeUnits.
    rewrite BlankFacts.trim_blank; [reflexivity|].
    now rewrite BlankFacts.isBlank_toLowerCase.
  - unfold searchAdministrativeUnits.
    now rewrite (BlankFacts.parseQuery_blank query H).
Qed.

Lemma search_blank_query_throws_witness :
  isBlank "" = true
  /\ exactSearchAdministrativeUnits Sample.data "" = []
  /\ searchAdministrativeUnits Sample.data Sample.prefixFuse "" 100
     = Throw (TypeError
         "Cannot read properties of undefined (reading 'matches')").
Proof.
  split; [reflexivity|].
  apply (search_blank_query_throws Sample.data Sample.prefixFuse "" 100).
  reflexivity.
Defined.

(** ** Relatedness *)

Lemma sameTruthy_sym a b : sameTruthy a b = sameTruthy b a.
Proof.
  destruct a as [x|], b as [y|]; simpl; try reflexivity.
  destruct (String.eqb_spec x y) as [->|Hne].
  - now rewrite String.eqb_refl.
  - rewrite (proj2 (String.eqb_neq y x)) by congruence.
    now rewrite !andb_false_r.
Qed.

Lemma sameTruthy_true level c1 c2 :
  sameTruthy (level c1) (level c2) = true <-> sharesNonEmptyId level c1 c2.
Proof.
  unfold sameTruthy, sharesNonEmptyId. split.
  - destruct (level c1) as [x|], (level c2) as [y|]; try discriminate.
    intros H. apply andb_prop in H as [Ht He].
    apply String.eqb_eq in He as <-.
    exists x. repeat split. now destruct x.
  - intros (i & Hi & -> & ->). rewrite String.eqb_refl.
    now destruct i.
Qed.

(** C8.  Relatedness is symmetric: [areRelated a b] and [areRelated b a]
    are the same boolean, for every reference data set and every pair of
    results. *)
Theorem areRelated_symmetric data (a b : SearchResult.t) :
  areRelated data a b = areRelated data b a.
Proof.
  unfold areRelated.
  now rewrite (sameTruthy_sym (Chain.districtId _)),
    (sameTruthy_sym (Chain.countyId _)),
    (sameTruthy_sym (Chain.subCountyId _)),
    (sameTruthy_sym (Chain.parishId _)).
Qed.

(** C2 (as amended).  [areRelated a b] is true if and only if the two
    chains hold one and the same non-empty identifier at the district, the
    county, the sub-county or the parish level; the village level is never
    compared. *)
Theorem areRelated_iff_shared_up_to_parish data (a b : SearchResult.t) :
  areRelated data a b = true
  <-> relatedUpToParish (chainOf data a) (chainOf data b).
Proof.
  unfold areRelated, relatedUpToParish. fold (chainOf data a) (chainOf data b).
  rewrite !orb_true_iff, !sameTruthy_true. tauto.
Qed.

(** C2 (counterexample).  Two villages whose parish reference dangles
    share the parish identifier and nothing above it: the code relates
    them, the claim's three levels do not. *)
Lemma areRelated_not_only_up_to_subCounty :
  areRelated Sample.data Sample.kasangaV2 Sample.bukasaV3 = true
  /\ ~ relatedUpToSubCounty (chainOf Sample.data Sample.kasangaV2)
         (chainOf Sample.data Sample.bukasaV3).
Proof.
  split; [reflexivity|].
  intros [(i & Hi & _) | [(i & Hi & _) | (i & Hi & _)]];
    vm_compute in Hi; discriminate.
Qed.

(** ** Hierarchy chains *)

Lemma buildMap_lookup_In {A : Type} (key : A -> string) (l : list A) i x :
  buildMap key l !! i = Some x -> In x l.
Proof.
  unfold buildMap.
  enough (forall m : gmap string A,
             foldl (fun m x => <[key x := x]> m) m l !! i = Some x ->
             In x l \/ m !! i = Some x) as H.
  { intros Hx. destruct (H ∅ Hx) as [Hin | He]; [exact Hin|].
    rewrite lookup_empty in He. discriminate. }
  induction l as [|y r IH]; intros m Hx; simpl in *.
  - now right.
  - destruct (IH _ Hx) as [Hin | He]; [left; now right|].
    destruct (decide (key y = i)) as [<-|Hne].
    + rewrite lookup_insert_eq in He. left. left. congruence.
    + rewrite lookup_insert_ne in He by exact Hne. now right.
Qed.

Lemma hasKey_is_Some {A : Type} (m : gmap string A) k :
  hasKey m k = true -> exists x, m !! k = Some x.
Proof.
  unfold hasKey. destruct (m !! k) as [x|]; [eauto | discriminate].
Qed.

Section WellFormedData.

Variable data : Data.
Hypothesis Hwf : wellFormed data = true.

Lemma wf_subCounty id s :
  subCountyMap data !! id = Some s ->
  exists c, countyMap data !! SubCounty.county s = Some c.
Proof using Hwf.
  intros Hs. apply buildMap_lookup_In in Hs.
  unfold wellFormed in Hwf. rewrite !andb_true_iff in Hwf.
  destruct Hwf as [[[_ H] _] _].
  rewrite forallb_forall in H. now apply hasKey_is_Some, H.
Qed.

Lemma wf_parish id p :
  parishMap data !! id = Some p ->
  exists s, subCountyMap data !! Parish.subcounty p = Some s.
Proof using Hwf.
  intros Hp. apply buildMap_lookup_In in Hp.
  unfold wellFormed in Hwf. rewrite !andb_true_iff in Hwf.
  destruct Hwf as [[_ H] _].
  rewrite forallb_forall in H. now apply hasKey_is_Some, H.
Qed.

Lemma wf_village id v :
  List.find (fun v => String.eqb (Village.id v) id) (villages data)
  = Some v ->
  exists p, parishMap data !! Village.parish v = Some p.
Proof using Hwf.
  intros Hv. apply find_some in Hv as [Hv _].
  unfold wellFormed in Hwf. rewrite !andb_true_iff in Hwf.
  destruct Hwf as [_ H].
  rewrite forallb_forall in H. now apply hasKey_is_Some, H.
Qed.

End WellFormedData.

(** A type string outside the five levels takes the [default] case. *)
Lemma getHierarchyChain_default data type id :
  (forall t, type <> typeName t) ->
  getHierarchyChain data type id = Chain.empty.
Proof.
  intros H. unfold getHierarchyChain.
  assert (forall t, String.eqb type (typeName t) = false) as Hne
    by (intros t; apply String.eqb_neq, H).
  pose proof (Hne DistrictT) as H1. pose proof (Hne CountyT) as H2.
  pose proof (Hne SubCountyT) as H3. pose proof (Hne ParishT) as H4.
  pose proof (Hne VillageT) as H5. cbn [typeName] in *.
  now rewrite H1, H2, H3, H4, H5.
Qed.

(** Splits a statement about a chain into its parts and closes those that
    follow from the lookups recorded in the context. *)
Ltac chain_facts :=
  repeat split; intros; cbn in *;
  repeat match goal with
    | E : ?x = Some _ |- context [?x] => rewrite E; cbn
    | E : ?x = None |- context [?x] => rewrite E; cbn
    end;
  try lia; try congruence;
  try match goal with
    | H : ¬ is_Some (Some _) |- _ => exfalso; apply H; eauto
    | H : is_Some None |- _ => destruct H; discriminate
    end;
  try solve [
    repeat (match goal with
            | |- context [?m !! ?k] => destruct (m !! k) eqn:?
            end; cbn);
    congruence ];
  eauto.

(** In well-formed data, resolves the parent of every unit whose lookup is
    recorded in the context. *)
Ltac resolve_parents :=
  match goal with
  | Hwf : wellFormed ?data = true |- _ =>
      repeat match goal with
        | E : List.find _ (villages data) = Some ?v |- _ =>
            lazymatch goal with
            | _ : parishMap data !! Village.parish v = Some _ |- _ => fail
            | _ => destruct (wf_village data Hwf _ v E) as [? ?]
            end
        | E : parishMap data !! _ = Some ?p |- _ =>
            lazymatch goal with
            | _ : subCountyMap data !! Parish.subcounty p = Some _ |- _ =>
                fail
            | _ => destruct (wf_parish data Hwf _ p E) as [? ?]
            end
        | E : subCountyMap data !! _ = Some ?s |- _ =>
            lazymatch goal with
            | _ : countyMap data !! SubCounty.county s = Some _ |- _ => fail
            | _ => destruct (wf_subCounty data Hwf _ s E) as [? ?]
            end
        end
  end.

(** The chain at the levels where the code follows the contract.  For
    every level [t] and identifier [id]:
    - below the district level an unknown identifier gives the empty
      chain;
    - a known identifier gives the chain of the walk along the parent
      links, with the identifier at its own level;
    - every level above the unit's own is obtained from the level below
      it by that level's parent link, so a reference that does not resolve
      leaves all levels above it absent;
    - in well-formed reference data the chain of a known unit has an
      identifier at every level from its own up to the district. *)
Lemma getHierarchyChain_walks_up data t id :
  let c := getHierarchyChain data (typeName t) id in
  (t <> DistrictT -> ~ known data t id -> c = Chain.empty)
  /\ (known data t id -> c = walkUp data t id /\ ownId t c = Some id)
  /\ linkedAbove data t c
  /\ (wellFormed data = true -> known data t id -> completeFrom t c).
Proof.
  unfold getHierarchyChain, linkedAbove, completeFrom, known, walkUp,
    countyParent, subCountyParent, parishParent, villageParent.
  destruct t; cbn -[lookup List.find].
  - (* district *)
    chain_facts.
  - (* county *)
    destruct (countyMap data !! id) as [c|] eqn:Ec; chain_facts.
  - (* sub-county *)
    destruct (subCountyMap data !! id) as [s|] eqn:Es; chain_facts.
    resolve_parents. chain_facts.
  - (* parish *)
    destruct (parishMap data !! id) as [p|] eqn:Ep; chain_facts.
    all: resolve_parents; chain_facts.
  - (* village *)
    destruct (List.find _ (villages data)) as [v|] eqn:Ev; chain_facts.
    all: resolve_parents; chain_facts.
Qed.

Lemma getHierarchyChain_walks_up_witness :
  wellFormed Sample.tidy = true
  /\ known Sample.tidy VillageT "v1"
  /\ getHierarchyChain Sample.tidy "village" "v1"
     = Chain.mk (Some "32") (Some "c1") (Some "s1") (Some "p1") (Some "v1")
  /\ completeFrom VillageT (getHierarchyChain Sample.tidy "village" "v1").
Proof.
  assert (wellFormed Sample.tidy = true) as Hwf by reflexivity.
  assert (known Sample.tidy VillageT "v1") as Hk by (vm_compute; eauto).
  destruct (getHierarchyChain_walks_up Sample.tidy VillageT "v1")
    as (_ & _ & _ & Hc).
  repeat split; try assumption; try reflexivity; now apply Hc.
Defined.

(** C7 (the defect).  The claim asks for an empty chain whenever the
    identifier is unknown at the level.  For an identifier [id] that no
    district has, [getHierarchyChain "district" id] does not return the
    empty chain: the district case looks nothing up and returns a chain
    whose district is [id].  The other paths do what the claim asks:
    [getDistrictHierarchy] gives the empty hierarchy for the same [id],
    and the county, sub-county, parish and village cases, as well as the
    default case of a type string that names no level, give the empty
    chain for every identifier unknown at their level. *)
Theorem getHierarchyChain_unknown_district data id :
  ~ known data DistrictT id ->
  getHierarchyChain data "district" id
  = Chain.mk (Some id) None None None None
  /\ getHierarchyChain data "district" id <> Chain.empty
  /\ getDistrictHierarchy data id = Hierarchy.empty
  /\ (forall t id',
        t <> DistrictT -> ~ known data t id' ->
        getHierarchyChain data (typeName t) id' = Chain.empty)
  /\ (forall type id',
        (forall t, type <> typeName t) ->
        getHierarchyChain data type id' = Chain.empty).
Proof.
  intros Hunknown.
  split; [reflexivity|]. split; [discriminate|].
  split; [|split].
  - unfold known in Hunknown. unfold getDistrictHierarchy.
    destruct (districtMap data !! id) as [d|] eqn:Ed; [|reflexivity].
    exfalso. apply Hunknown. eauto.
  - intros t id' Ht Hid'.
    now apply (getHierarchyChain_walks_up data t id').
  - intros type id' Htype. now apply getHierarchyChain_default.
Qed.

Lemma getHierarchyChain_unknown_district_witness :
  ~ known Sample.data DistrictT "999"
  /\ getHierarchyChain Sample.data "district" "999"
     = Chain.mk (Some "999") None None None None
  /\ getHierarchyChain Sample.data "district" "999" <> Chain.empty
  /\ getDistrictHierarchy Sample.data "999" = Hierarchy.empty
  /\ getHierarchyChain Sample.data "county" "999" = Chain.empty.
Proof.
  assert (~ known Sample.data DistrictT "999") as Hunknown
    by (intros [d Hd]; vm_compute in Hd; discriminate).
  destruct (getHierarchyChain_unknown_district Sample.data "999" Hunknown)
    as (Hchain & Hne & Hhier & Hsiblings & _).
  split; [exact Hunknown|]. split; [exact Hchain|].
  split; [exact Hne|]. split; [exact Hhier|].
  apply (Hsiblings CountyT "999"); [discriminate|].
  intros [c Hc]. vm_compute in Hc. discriminate.
Defined.

(** ** Sorting and slicing *)

Section SortFacts.

Context {A : Type}.
Variable compareFn : A -> A -> Q.
Variable R : A -> A -> Prop.

Hypothesis compare_le :
  forall x y, Qle_bool (compareFn x y) 0 = true -> R x y.
Hypothesis compare_gt :
  forall x y, Qle_bool (compareFn x y) 0 = false -> R y x.
Hypothesis R_trans : forall x y z, R x y -> R y z -> R x z.

Lemma insert_Permutation x l :
  Permutation (JsArray.insert compareFn x l) (x :: l).
Proof using Type.
  induction l as [|y r IH]; simpl; [reflexivity|].
  destruct (Qle_bool (compareFn x y) 0); [reflexivity|].
  rewrite IH. apply perm_swap.
Qed.

Lemma sort_Permutation l : Permutation (JsArray.sort compareFn l) l.
Proof using Type.
  induction l as [|x r IH]; simpl; [reflexivity|].
  rewrite insert_Permutation. now rewrite IH.
Qed.

Lemma insert_StronglySorted x l :
  StronglySorted R l -> StronglySorted R (JsArray.insert compareFn x l).
Proof using compare_le compare_gt R_trans.
  induction 1 as [|y r Hr IH Hy]; simpl.
  - repeat constructor.
  - destruct (Qle_bool (compareFn x y) 0) eqn:E.
    + constructor; [now constructor|].
      constructor; [now apply compare_le|].
      eapply List.Forall_impl; [|exact Hy].
      intros z Hz. eapply R_trans; [|exact Hz]. now apply compare_le.
    + constructor; [exact IH|].
      eapply Permutation_Forall.
      * symmetry. apply insert_Permutation.
      * constructor; [now apply compare_gt | exact Hy].
Qed.

Lemma sort_StronglySorted l : StronglySorted R (JsArray.sort compareFn l).
Proof using compare_le compare_gt R_trans.
  induction l as [|x r IH]; simpl; [constructor|].
  now apply insert_StronglySorted.
Qed.

End SortFacts.

Lemma StronglySorted_firstn {A : Type} (R : A -> A -> Prop) n l :
  StronglySorted R l -> StronglySorted R (firstn n l).
Proof.
  intros H. revert n. induction H as [|x r Hr IH Hx]; intros [|n]; simpl;
    try constructor.
  - apply IH.
  - apply List.Forall_forall. intros y Hy.
    rewrite List.Forall_forall in Hx. apply Hx.
    rewrite <- (firstn_skipn n r). apply in_or_app. now left.
Qed.

Lemma StronglySorted_map {A B : Type} (f : A -> B) (R : A -> A -> Prop)
    (S : B -> B -> Prop) l :
  (forall x y, R x y -> S (f x) (f y)) ->
  StronglySorted R l -> StronglySorted S (List.map f l).
Proof.
  intros HRS. induction 1 as [|x r Hr IH Hx]; simpl; constructor.
  - exact IH.
  - apply List.Forall_forall. intros y Hy.
    apply in_map_iff in Hy as (z & <- & Hz).
    rewrite List.Forall_forall in Hx. auto.
Qed.

Lemma slice0_nonneg {A : Type} (end_ : Z) (l : list A) :
  (0 <= end_)%Z -> JsArray.slice0 end_ l = firstn (Z.to_nat end_) l.
Proof.
  intros H. unfold JsArray.slice0.
  destruct (Z.ltb_spec end_ 0) as [Hlt|_]; [lia|].
  destruct (Z.le_gt_cases end_ (Z.of_nat (List.length l))) as [Hle|Hgt].
  - now rewrite Z.min_l.
  - rewrite Z.min_r by lia. rewrite Nat2Z.id.
    rewrite firstn_all. symmetry. apply firstn_all2. lia.
Qed.

Lemma slice0_firstn {A : Type} (end_ : Z) (l : list A) :
  exists n, JsArray.slice0 end_ l = firstn n l.
Proof. unfold JsArray.slice0. eauto. Qed.

Lemma slice0_length {A : Type} (end_ : Z) (l : list A) :
  (List.length (JsArray.slice0 end_ l) <= List.length l)%nat.
Proof.
  destruct (slice0_firstn end_ l) as [n ->]. rewrite length_firstn. lia.
Qed.

Lemma byScore_le a b :
  Qle_bool (byScore a b) 0 = true -> scoreDescending a b.
Proof.
  unfold byScore, scoreDescending. rewrite Qle_bool_iff. lra.
Qed.

Lemma byScore_gt a b :
  Qle_bool (byScore a b) 0 = false -> scoreDescending b a.
Proof.
  unfold byScore, scoreDescending. intros H.
  destruct (Qlt_le_dec 0 (SearchResult.score b - SearchResult.score a))
    as [Hlt|Hle]; [lra|].
  apply Qle_bool_iff in Hle. congruence.
Qed.

Lemma scoreDescending_trans a b c :
  scoreDescending a b -> scoreDescending b c -> scoreDescending a c.
Proof. unfold scoreDescending. lra. Qed.

Lemma byMatchCountThenScore_le a b :
  Qle_bool (byMatchCountThenScore a b) 0 = true ->
  matchCountThenScoreDescending a b.
Proof.
  unfold byMatchCountThenScore, matchCountThenScoreDescending.
  rewrite Qle_bool_iff.
  destruct (Z.eqb_spec (Combined.matchCount a) (Combined.matchCount b))
    as [He|Hne]; simpl.
  - intros H. right. split; [exact He | lra].
  - intros H. left. change 0%Q with (inject_Z 0) in H.
    rewrite <- Zle_Qle in H. lia.
Qed.

Lemma byMatchCountThenScore_gt a b :
  Qle_bool (byMatchCountThenScore a b) 0 = false ->
  matchCountThenScoreDescending b a.
Proof.
  unfold byMatchCountThenScore, matchCountThenScoreDescending.
  intros H.
  assert (~ (byMatchCountThenScore a b <= 0)%Q) as Hn.
  { intros Hle. apply Qle_bool_iff in Hle.
    unfold byMatchCountThenScore in Hle. congruence. }
  unfold byMatchCountThenScore in Hn.
  destruct (Z.eqb_spec (Combined.matchCount a) (Combined.matchCount b))
    as [He|Hne]; simpl in Hn.
  - right. split; [congruence|]. lra.
  - left. change 0%Q with (inject_Z 0) in Hn.
    rewrite <- Zle_Qle in Hn. lia.
Qed.

Lemma matchCountThenScoreDescending_trans a b c :
  matchCountThenScoreDescending a b -> matchCountThenScoreDescending b c ->
  matchCountThenScoreDescending a c.
Proof.
  unfold matchCountThenScoreDescending.
  intros [H1 | [H1 H1']] [H2 | [H2 H2']].
  - left. lia.
  - left. lia.
  - left. lia.
  - right. split; [congruence | lra].
Qed.

(** The multi-term branch, for a query of two or more terms. *)
Lemma search_multi_term data newFuse query maxResults t1 t2 rest :
  parseQuery query = t1 :: t2 :: rest ->
  searchAdministrativeUnits data newFuse query maxResults
  = Return (RankedResults
      (List.map (finalize (List.length (t1 :: t2 :: rest)))
         (JsArray.slice0 maxResults
            (JsArray.sort byMatchCountThenScore
               (combinedResults data newFuse (t1 :: t2 :: rest)))))).
Proof.
  intros H. unfold searchAdministrativeUnits. rewrite H. reflexivity.
Qed.

(** ** Single-term search: order and limit *)

(** C4 (as amended).  For every limit, the results of a single-term
    query are a front part of the term's matches sorted by similarity,
    descending, so they are sorted themselves; for a limit that is not
    negative they are the first [maxResults] entries, at most [maxResults]
    of them.  With the limit 0, every query that has at least one term
    returns the empty sequence. *)
Theorem search_single_term_sorted_and_limited
    data newFuse query maxResults :
  (forall term, parseQuery query = [term] ->
     exists results sorted,
       searchAdministrativeUnits data newFuse query maxResults
       = Return (PlainResults results)
       /\ Permutation sorted
            (fuzzySearchSingleTerm data newFuse term maxResults)
       /\ StronglySorted scoreDescending sorted
       /\ results = JsArray.slice0 maxResults sorted
       /\ StronglySorted scoreDescending results
       /\ ((0 <= maxResults)%Z ->
           results = firstn (Z.to_nat maxResults) sorted
           /\ (Z.of_nat (List.length results) <= maxResults)%Z))
  /\ (maxResults = 0%Z -> parseQuery query <> [] ->
      returnsEmpty
        (searchAdministrativeUnits data newFuse query maxResults)).
Proof.
  split.
  - intros term Hterm.
    pose (pool := fuzzySearchSingleTerm data newFuse term maxResults).
    assert (StronglySorted scoreDescending (JsArray.sort byScore pool))
      as Hsorted.
    { apply sort_StronglySorted;
        [exact byScore_le | exact byScore_gt | exact scoreDescending_trans]. }
    exists (JsArray.slice0 maxResults (JsArray.sort byScore pool)),
      (JsArray.sort byScore pool).
    repeat split.
    + unfold searchAdministrativeUnits. now rewrite Hterm.
    + apply sort_Permutation.
    + exact Hsorted.
    + destruct (slice0_firstn maxResults (JsArray.sort byScore pool))
        as [k ->].
      now apply StronglySorted_firstn.
    + now apply slice0_nonneg.
    + rewrite slice0_nonneg by assumption. rewrite length_firstn. lia.
  - intros -> Hterms. unfold returnsEmpty, searchAdministrativeUnits.
    destruct (parseQuery query) as [|t1 [|t2 rest]]; [congruence| |].
    + left. now rewrite slice0_nonneg.
    + right. cbv zeta. cbn [nth_error termResultsOf List.map].
      now rewrite slice0_nonneg.
Qed.

Lemma search_single_term_sorted_and_limited_witness :
  parseQuery "Ka" = ["Ka"]
  /\ (0 <= 2)%Z
  /\ (exists results sorted,
       searchAdministrativeUnits Sample.data Sample.prefixFuse "Ka" 2
       = Return (PlainResults results)
       /\ Permutation sorted
            (fuzzySearchSingleTerm Sample.data Sample.prefixFuse "Ka" 2)
       /\ StronglySorted scoreDescending sorted
       /\ results = JsArray.slice0 2 sorted
       /\ StronglySorted scoreDescending results
       /\ results = firstn (Z.to_nat 2) sorted
       /\ (Z.of_nat (List.length results) <= 2)%Z)
  /\ parseQuery "Kasanga, Kampala" <> []
  /\ returnsEmpty
       (searchAdministrativeUnits Sample.data Sample.prefixFuse
          "Kasanga, Kampala" 0).
Proof.
  assert (0 <= 2)%Z as H2 by lia.
  assert (parseQuery "Kasanga, Kampala" <> []) as Hne by discriminate.
  split; [reflexivity|]. split; [exact H2|].
  split.
  - destruct (proj1 (search_single_term_sorted_and_limited
                       Sample.data Sample.prefixFuse "Ka" 2) "Ka" eq_refl)
      as (results & sorted & H).
    exists results, sorted.
    destruct H as (Hr & Hp & Hs & He & Hrs & Hlim).
    destruct (Hlim H2) as [Hf Hl].
    repeat split; assumption.
  - split; [exact Hne|].
    exact (proj2 (search_single_term_sorted_and_limited
                    Sample.data Sample.prefixFuse "Kasanga, Kampala" 0)
             eq_refl Hne).
Defined.

(** C4 (counterexample).  With the limit -1 the two-term query
    ["Nakawa, Nowhere"] returns two results: [slice(0, -1)] drops the last
    of the three ranked seeds instead of all of them. *)
Lemma search_negative_limit_not_empty :
  (-1 <= 0)%Z
  /\ (exists r1 r2,
        searchAdministrativeUnits Sample.data Sample.prefixFuse
          "Nakawa, Nowhere" (-1)
        = Return (RankedResults [r1; r2]))
  /\ ~ returnsEmpty
         (searchAdministrativeUnits Sample.data Sample.prefixFuse
            "Nakawa, Nowhere" (-1)).
Proof.
  split; [lia|]. split.
  - do 2 eexists. vm_compute. reflexivity.
  - intros [H | H]; vm_compute in H; discriminate.
Qed.

(** ** Multi-term search: order *)

(** C5.  For a query of two or more terms the returned list is the image,
    entry by entry, of the seeds sorted by match count, descending, then by
    combined score, descending (cut to the limit); hence [matchedTerms]
    never increases along the returned list. *)
Theorem search_multi_term_sorted
    data newFuse query maxResults t1 t2 rest :
  parseQuery query = t1 :: t2 :: rest ->
  exists ranked sorted,
    searchAdministrativeUnits data newFuse query maxResults
    = Return (RankedResults
        (List.map (finalize (List.length (t1 :: t2 :: rest))) ranked))
    /\ Permutation sorted (combinedResults data newFuse (t1 :: t2 :: rest))
    /\ StronglySorted matchCountThenScoreDescending sorted
    /\ ranked = JsArray.slice0 maxResults sorted
    /\ StronglySorted matchCountThenScoreDescending ranked
    /\ StronglySorted matchedTermsDescending
         (List.map (finalize (List.length (t1 :: t2 :: rest))) ranked).
Proof.
  intros Hterms.
  pose (combined := combinedResults data newFuse (t1 :: t2 :: rest)).
  assert (StronglySorted matchCountThenScoreDescending
            (JsArray.sort byMatchCountThenScore combined)) as Hsorted.
  { apply sort_StronglySorted;
      [exact byMatchCountThenScore_le | exact byMatchCountThenScore_gt
      | exact matchCountThenScoreDescending_trans]. }
  assert (StronglySorted matchCountThenScoreDescending
            (JsArray.slice0 maxResults
               (JsArray.sort byMatchCountThenScore combined))) as Hranked.
  { destruct (slice0_firstn maxResults
                (JsArray.sort byMatchCountThenScore combined)) as [n ->].
    now apply StronglySorted_firstn. }
  exists (JsArray.slice0 maxResults
            (JsArray.sort byMatchCountThenScore combined)),
    (JsArray.sort byMatchCountThenScore combined).
  repeat split.
  - now apply search_multi_term.
  - apply sort_Permutation.
  - exact Hsorted.
  - exact Hranked.
  - eapply StronglySorted_map; [|exact Hranked].
    intros x y [H | [H _]]; unfold matchedTermsDescending; simpl; lia.
Qed.

Lemma search_multi_term_sorted_witness :
  parseQuery "Kasanga, Kampala" = ["Kasanga"; "Kampala"]
  /\ exists ranked sorted,
    searchAdministrativeUnits Sample.data Sample.prefixFuse
      "Kasanga, Kampala" 100
    = Return (RankedResults (List.map (finalize 2) ranked))
    /\ Permutation sorted
         (combinedResults Sample.data Sample.prefixFuse
            ["Kasanga"; "Kampala"])
    /\ StronglySorted matchCountThenScoreDescending sorted
    /\ ranked = JsArray.slice0 100 sorted
    /\ StronglySorted matchCountThenScoreDescending ranked
    /\ StronglySorted matchedTermsDescending (List.map (finalize 2) ranked).
Proof.
  split; [reflexivity|].
  exact (search_multi_term_sorted Sample.data Sample.prefixFuse
           "Kasanga, Kampala" 100 "Kasanga" "Kampala" [] eq_refl).
Defined.

(** ** Multi-term search: seeds and scores *)

(** The loop over the later pools, from any state of the locals. *)
Lemma scan_pools data firstResult (others : list TermResult.t) st :
  List.fold_left (scanPool data firstResult) others st
  = let found :=
      contributions data firstResult
        (List.map TermResult.matches others) in
    mkTally (matchCount st + Z.of_nat (List.length found))
      (List.fold_left (fun acc r => (acc + SearchResult.score r)%Q) found
         (totalScore st))
      (match found with [] => hierarchyBonus st | _ :: _ => 1.5%Q end)
      (relatedMatches st ++ found).
Proof.
  revert st. induction others as [|other later IH]; intros st; simpl.
  - destruct st as [mc ts hb rm]. simpl.
    now rewrite Z.add_0_r, app_nil_r.
  - rewrite IH. unfold scanPool, firstRelated.
    destruct (List.find _ (TermResult.matches other)) as [r|]; simpl.
    + f_equal.
      * lia.
      * now destruct (contributions _ _ _).
      * now rewrite <- app_assoc.
    + reflexivity.
Qed.

Lemma tally_seed data termResults firstResult :
  let pools := List.map TermResult.matches (skipn 1 termResults) in
  tally data termResults firstResult
  = mkTally (seedMatchCount data firstResult pools)
      (seedTotalScore data firstResult pools)
      (seedHierarchyBonus data firstResult pools)
      (firstResult :: contributions data firstResult pools).
Proof. unfold tally. now rewrite scan_pools. Qed.

Lemma combine_rankedSeed data n termResults firstResult :
  combine data n termResults firstResult
  = rankedSeed data n
      (List.map TermResult.matches (skipn 1 termResults)) firstResult.
Proof. unfold combine. now rewrite tally_seed. Qed.

Lemma termResultsOf_pools data newFuse t1 later :
  List.map TermResult.matches
    (skipn 1 (termResultsOf data newFuse (t1 :: later)))
  = List.map (poolOf data newFuse) later.
Proof.
  unfold termResultsOf. simpl. rewrite skipn_O, List.map_map. reflexivity.
Qed.

(** C6.  For a query of terms [t1 .. tN], [N >= 2], with pools
    [M1 .. MN]: the combined results are one entry per candidate of [M1],
    in order, and no others.  For a seed, [matchCount] is 1 plus the
    number of later pools that hold a candidate related to it,
    [totalScore] is the seed's similarity plus the similarity of the first
    related candidate of each such pool in pool order, [hierarchyBonus] is
    1.5 if there is such a pool and 1.0 if not, and [combinedScore] is
    [(totalScore / N) * hierarchyBonus * (matchCount / N)]. *)
Theorem search_multi_term_seeds
    data newFuse query maxResults t1 t2 rest :
  parseQuery query = t1 :: t2 :: rest ->
  let n := List.length (t1 :: t2 :: rest) in
  let pools := List.map (poolOf data newFuse) (t2 :: rest) in
  combinedResults data newFuse (t1 :: t2 :: rest)
  = List.map (rankedSeed data n pools) (poolOf data newFuse t1)
  /\ searchAdministrativeUnits data newFuse query maxResults
     = Return (RankedResults
         (List.map (finalize n)
            (JsArray.slice0 maxResults
               (JsArray.sort byMatchCountThenScore
                  (List.map (rankedSeed data n pools)
                     (poolOf data newFuse t1))))))
  /\ forall seed,
       Combined.combinedScore (rankedSeed data n pools seed)
       = (seedTotalScore data seed pools / inject_Z (Z.of_nat n)
          * seedHierarchyBonus data seed pools
          * (inject_Z (seedMatchCount data seed pools)
             / inject_Z (Z.of_nat n)))%Q.
Proof.
  intros Hterms n pools.
  assert (combinedResults data newFuse (t1 :: t2 :: rest)
          = List.map (rankedSeed data n pools) (poolOf data newFuse t1))
    as Hcombined.
  { unfold combinedResults. apply List.map_ext. intros seed.
    rewrite combine_rankedSeed. now rewrite termResultsOf_pools. }
  repeat split.
  - exact Hcombined.
  - rewrite <- Hcombined. now apply search_multi_term.
Qed.

Lemma search_multi_term_seeds_witness :
  parseQuery "Kasanga, Kampala" = ["Kasanga"; "Kampala"]
  /\ List.map
       (fun c => (SearchResult.id (Combined.base c), Combined.matchCount c,
                  Qred (Combined.hierarchyBonus c),
                  Qred (Combined.combinedScore c)))
       (combinedResults Sample.data Sample.prefixFuse
          ["Kasanga"; "Kampala"])
     = [("v1", 2%Z, 3 # 2, 3 # 2); ("v2", 1%Z, 1%Q, 1 # 4)].
Proof.
  split; [reflexivity|].
  destruct (search_multi_term_seeds Sample.data Sample.prefixFuse
              "Kasanga, Kampala" 100 "Kasanga" "Kampala" [] eq_refl)
    as (-> & _ & _).
  vm_compute. reflexivity.
Defined.

(** ** Multi-term search: what a result carries *)

Lemma finalize_rankedAs n c : rankedAs n c (finalize n c).
Proof.
  unfold rankedAs, finalize, withoutMatchedTerm. simpl.
  repeat split; eauto.
Qed.

Lemma Forall2_map_right {A B : Type} (P : A -> B -> Prop) (f : A -> B) l :
  (forall x, P x (f x)) -> Forall2 P l (List.map f l).
Proof. intros H. induction l; simpl; constructor; auto. Qed.

(** C3 (as amended).  For a query of two or more terms every returned
    result is made from one ranked seed, position by position: it is the
    seed without its [matchedTerm] key (and without the three ranking
    fields), plus [matchInfo] with [matchedTerms] the seed's match count,
    [totalTerms] the number of terms, and [confidence] a string: the
    combined score written with three decimals by [toFixed(3)].  Every
    ranked seed is a combined result, whose base is a candidate of the
    first term's pool. *)
Theorem search_multi_term_result_shape
    data newFuse query maxResults t1 t2 rest :
  parseQuery query = t1 :: t2 :: rest ->
  let n := List.length (t1 :: t2 :: rest) in
  exists ranked results,
    searchAdministrativeUnits data newFuse query maxResults
    = Return (RankedResults results)
    /\ ranked
       = JsArray.slice0 maxResults
           (JsArray.sort byMatchCountThenScore
              (combinedResults data newFuse (t1 :: t2 :: rest)))
    /\ Forall2 (rankedAs n) ranked results
    /\ forall c, In c ranked ->
         In c (combinedResults data newFuse (t1 :: t2 :: rest))
         /\ In (Combined.base c) (poolOf data newFuse t1).
Proof.
  intros Hterms n.
  pose (combined := combinedResults data newFuse (t1 :: t2 :: rest)).
  exists (JsArray.slice0 maxResults
            (JsArray.sort byMatchCountThenScore combined)),
    (List.map (finalize n)
       (JsArray.slice0 maxResults
          (JsArray.sort byMatchCountThenScore combined))).
  split; [now apply search_multi_term|].
  split; [reflexivity|].
  split; [apply Forall2_map_right, finalize_rankedAs|].
  intros c Hc.
  assert (In c combined) as Hin.
  { destruct (slice0_firstn maxResults
                (JsArray.sort byMatchCountThenScore combined)) as [k Hk].
    rewrite Hk in Hc.
    eapply Permutation_in; [apply sort_Permutation|].
    rewrite <- (firstn_skipn k (JsArray.sort _ combined)).
    apply in_or_app. left. exact Hc. }
  split; [exact Hin|].
  unfold combined, combinedResults in Hin.
  apply in_map_iff in Hin as (seed & <- & Hseed). exact Hseed.
Qed.

Lemma search_multi_term_result_shape_witness :
  parseQuery "Kasanga, Kampala" = ["Kasanga"; "Kampala"]
  /\ exists ranked results,
    searchAdministrativeUnits Sample.data Sample.prefixFuse
      "Kasanga, Kampala" 100
    = Return (RankedResults results)
    /\ ranked
       = JsArray.slice0 100
           (JsArray.sort byMatchCountThenScore
              (combinedResults Sample.data Sample.prefixFuse
                 ["Kasanga"; "Kampala"]))
    /\ Forall2 (rankedAs 2) ranked results
    /\ forall c, In c ranked ->
         In c (combinedResults Sample.data Sample.prefixFuse
                 ["Kasanga"; "Kampala"])
         /\ In (Combined.base c)
              (poolOf Sample.data Sample.prefixFuse "Kasanga").
Proof.
  split; [reflexivity|].
  exact (search_multi_term_result_shape Sample.data Sample.prefixFuse
           "Kasanga, Kampala" 100 "Kasanga" "Kampala" [] eq_refl).
Defined.

(** C3 (counterexample).  For ["Kasanga, Kampala"] the first result has
    the string ["1.500"] as its confidence and no [matchedTerm]; no
    combined result, with its numeric combined score and the seed as it
    is, yields it. *)
Lemma search_multi_term_result_not_seed_plus_number :
  exists r1 r2,
    searchAdministrativeUnits Sample.data Sample.prefixFuse
      "Kasanga, Kampala" 100
    = Return (RankedResults [r1; r2])
    /\ MatchInfo.confidence (Ranked.matchInfo r1) = JsStringV "1.500"
    /\ SearchResult.matchedTerm (Ranked.result r1) = None
    /\ Forall
         (fun c => SearchResult.matchedTerm (Combined.base c)
                   = Some "Kasanga")
         (combinedResults Sample.data Sample.prefixFuse
            ["Kasanga"; "Kampala"])
    /\ forall c,
         In c (combinedResults Sample.data Sample.prefixFuse
                 ["Kasanga"; "Kampala"]) ->
         ~ seedPlusMatchInfo 2 c r1.
Proof.
  do 2 eexists. split; [vm_compute; reflexivity|].
  split; [reflexivity|]. split; [reflexivity|].
  split.
  - vm_compute. repeat constructor.
  - intros c _ (_ & _ & _ & H). simpl in H. discriminate.
Qed.

(** ** Similarity scores *)

(** Every result of a term's search reports a hit of one of the five
    matcher instances. *)
Lemma fuzzySearchSingleTerm_reportsHit data newFuse term limit r :
  In r (fuzzySearchSingleTerm data newFuse term limit) ->
  exists d, reportsHit newFuse term limit r d.
Proof.
  unfold fuzzySearchSingleTerm, reportsHit.
  rewrite !in_app_iff, !in_map_iff.
  intros [H | [H | [H | [H | H]]]]; destruct H as (h & <- & Hh);
    exists (fuseScore h); do 3 eexists; exists h;
    (split; [exact Hh|]); simpl; auto.
Qed.

Lemma orZero_Qeq d : (JsNumber.orZero (Some d) == d)%Q.
Proof.
  unfold JsNumber.orZero. destruct (Qeq_bool d 0) eqn:E; [|reflexivity].
  apply Qeq_bool_iff in E. now rewrite E.
Qed.

(** C9 (as amended).  [index.ts] applies no threshold of its own.  For
    every matcher, the results of a term's search are the hits of the
    five matcher instances, one result per hit and none left out, and a
    result's similarity is 1 minus the score [s] the matcher gives its hit
    (0 when the hit carries no score).  So the similarity lies in
    [(0.6, 1.0]] exactly when [0 <= s < 0.4], and it is 1.0 exactly when
    [s] is 0. *)
Theorem fuzzySearchSingleTerm_similarity_of_hit data newFuse term limit r :
  In r (fuzzySearchSingleTerm data newFuse term limit) ->
  List.map SearchResult.score (fuzzySearchSingleTerm data newFuse term limit)
  = similaritiesOfHits data newFuse term limit
  /\ exists d,
       reportsHit newFuse term limit r d
       /\ SearchResult.score r = (1 - JsNumber.orZero d)%Q
       /\ ((0.6 < SearchResult.score r)%Q /\ (SearchResult.score r <= 1.0)%Q
           <-> (0 <= JsNumber.orZero d)%Q /\ (JsNumber.orZero d < 0.4)%Q)
       /\ ((SearchResult.score r == 1.0)%Q <-> (JsNumber.orZero d == 0)%Q).
Proof.
  intros Hr. split.
  - unfold fuzzySearchSingleTerm, similaritiesOfHits.
    now rewrite !List.map_app, !List.map_map.
  - destruct (fuzzySearchSingleTerm_reportsHit _ _ _ _ _ Hr) as (d & Hhit).
    exists d. split; [exact Hhit|].
    destruct Hhit as (A & l & name & h & _ & _ & _ & Hscore).
    split; [exact Hscore|].
    rewrite Hscore. split; split; intros; try split; lra.
Qed.

Lemma fuzzySearchSingleTerm_similarity_of_hit_witness :
  In (SearchResult.mk DistrictT "32" "Kampala" (1 - 0) (Some "kampala")
        (Hierarchy.mk (Some "Kampala") None None None None))
     (fuzzySearchSingleTerm Sample.data Sample.prefixFuse "kampala" 10)
  /\ List.map SearchResult.score
       (fuzzySearchSingleTerm Sample.data Sample.prefixFuse "kampala" 10)
     = similaritiesOfHits Sample.data Sample.prefixFuse "kampala" 10
  /\ exists d,
       reportsHit Sample.prefixFuse "kampala" 10
         (SearchResult.mk DistrictT "32" "Kampala" (1 - 0) (Some "kampala")
            (Hierarchy.mk (Some "Kampala") None None None None))
         d
       /\ (1 - 0)%Q = (1 - JsNumber.orZero d)%Q
       /\ ((0.6 < 1 - 0)%Q /\ (1 - 0 <= 1.0)%Q
           <-> (0 <= JsNumber.orZero d)%Q /\ (JsNumber.orZero d < 0.4)%Q)
       /\ ((1 - 0 == 1.0)%Q <-> (JsNumber.orZero d == 0)%Q).
Proof.
  assert (In (SearchResult.mk DistrictT "32" "Kampala" (1 - 0)
                (Some "kampala")
                (Hierarchy.mk (Some "Kampala") None None None None))
            (fuzzySearchSingleTerm Sample.data Sample.prefixFuse
               "kampala" 10)) as Hin
    by (vm_compute; left; reflexivity).
  split; [exact Hin|].
  exact (fuzzySearchSingleTerm_similarity_of_hit Sample.data
           Sample.prefixFuse "kampala" 10 _ Hin).
Defined.

(** C9 (counterexample).  With a matcher that scores a hit at 0.46 and an
    exact match at [Number.EPSILON], the search for ["nakawa"] returns
    the county "Nakawa Division" at similarity 0.54, which is not above
    0.6, and the sub-county "Nakawa", whose name is the term up to case,
    at a similarity that is not 1.0. *)
Lemma fuzzySearchSingleTerm_similarity_not_bounded :
  let results :=
    fuzzySearchSingleTerm Sample.data Sample.scaledFuse "nakawa" 10 in
  (exists r,
     In r results
     /\ SearchResult.type r = CountyT
     /\ SearchResult.name r = "Nakawa Division"
     /\ (SearchResult.score r == 0.54)%Q
     /\ ~ (0.6 < SearchResult.score r)%Q)
  /\ (exists r,
        In r results
        /\ SearchResult.type r = SubCountyT
        /\ SearchResult.name r = "Nakawa"
        /\ JsString.toLowerCase (SearchResult.name r)
           = JsString.toLowerCase "nakawa"
        /\ (SearchResult.score r == 1 - Sample.epsilon)%Q
        /\ ~ (SearchResult.score r == 1.0)%Q).
Proof.
  split.
  - eexists. split; [vm_compute; left; reflexivity|].
    split; [reflexivity|]. split; [reflexivity|].
    split; [reflexivity|]. intros H. vm_compute in H. discriminate.
  - eexists. split; [vm_compute; right; left; reflexivity|].
    split; [reflexivity|]. split; [reflexivity|].
    split; [reflexivity|]. split; [reflexivity|].
    intros H. vm_compute in H. discriminate.
Qed.

Lemma prefixFuse_respectsLimit : respectsLimit Sample.prefixFuse.
Proof.
  intros A l name term limit Hlimit. unfold Sample.prefixFuse.
  destruct (Z.ltb_spec limit 0) as [Hlt|_]; [lia|].
  rewrite length_firstn. lia.
Defined.

(** ** Multi-term search: size of the pools *)

Lemma poolOf_length data newFuse term :
  respectsLimit newFuse ->
  (List.length (poolOf data newFuse term) <= 150)%nat.
Proof.
  intros Hlimit. unfold poolOf, fuzzySearchSingleTerm.
  rewrite !length_app, !length_map.
  unfold districtFuse, countyFuse, subCountyFuse, parishFuse, villageFuse.
  pose proof (Hlimit District.t (districts data) District.name term 30%Z).
  pose proof (Hlimit County.t (counties data) County.name term 30%Z).
  pose proof (Hlimit SubCounty.t (subCounties data) SubCounty.name term
                30%Z).
  pose proof (Hlimit Parish.t (parishes data) Parish.name term 30%Z).
  pose proof (Hlimit Village.t (villages data) Village.name term 30%Z).
  lia.
Qed.

(** C10.  Given a matcher that returns at most [limit] hits, in a query of
    two or more terms each of the five instances is asked for 30 hits per
    term whatever [maxResults] is, so a term's pool has at most 150
    candidates; the combined results, one per candidate of the first pool,
    do not depend on [maxResults], and for every [maxResults] the returned
    list has at most 150 entries. *)
Theorem search_multi_term_pool_cap data newFuse query t1 t2 rest :
  respectsLimit newFuse ->
  parseQuery query = t1 :: t2 :: rest ->
  (forall term,
      poolOf data newFuse term = fuzzySearchSingleTerm data newFuse term 30
      /\ (List.length (districtFuse data newFuse term 30%Z) <= 30)%nat
      /\ (List.length (countyFuse data newFuse term 30%Z) <= 30)%nat
      /\ (List.length (subCountyFuse data newFuse term 30%Z) <= 30)%nat
      /\ (List.length (parishFuse data newFuse term 30%Z) <= 30)%nat
      /\ (List.length (villageFuse data newFuse term 30%Z) <= 30)%nat
      /\ (List.length (poolOf data newFuse term) <= 150)%nat)
  /\ exists combined,
       (List.length combined <= 150)%nat
       /\ forall maxResults,
            exists results,
              searchAdministrativeUnits data newFuse query maxResults
              = Return (RankedResults results)
              /\ results
                 = List.map (finalize (List.length (t1 :: t2 :: rest)))
                     (JsArray.slice0 maxResults
                        (JsArray.sort byMatchCountThenScore combined))
              /\ (List.length results <= 150)%nat.
Proof.
  intros Hlimit Hterms. split.
  - intros term. split; [reflexivity|].
    unfold districtFuse, countyFuse, subCountyFuse, parishFuse, villageFuse.
    pose proof (Hlimit District.t (districts data) District.name term 30%Z).
    pose proof (Hlimit County.t (counties data) County.name term 30%Z).
    pose proof (Hlimit SubCounty.t (subCounties data) SubCounty.name term
                  30%Z).
    pose proof (Hlimit Parish.t (parishes data) Parish.name term 30%Z).
    pose proof (Hlimit Village.t (villages data) Village.name term 30%Z).
    pose proof (poolOf_length data newFuse term Hlimit).
    repeat split; lia.
  - exists (combinedResults data newFuse (t1 :: t2 :: rest)).
    assert (List.length (combinedResults data newFuse (t1 :: t2 :: rest))
            <= 150)%nat as Hcombined.
    { unfold combinedResults. rewrite length_map.
      now apply poolOf_length. }
    split; [exact Hcombined|].
    intros maxResults. eexists.
    split; [exact (search_multi_term data newFuse query maxResults
                     t1 t2 rest Hterms)|].
    split; [reflexivity|].
    rewrite length_map.
    pose proof (slice0_length maxResults
                  (JsArray.sort byMatchCountThenScore
                     (combinedResults data newFuse (t1 :: t2 :: rest)))).
    pose proof (Permutation_length
                  (sort_Permutation byMatchCountThenScore
                     (combinedResults data newFuse (t1 :: t2 :: rest)))).
    lia.
Qed.

Lemma search_multi_term_pool_cap_witness :
  respectsLimit Sample.prefixFuse
  /\ parseQuery "Kasanga, Kampala" = ["Kasanga"; "Kampala"]
  /\ exists results,
       searchAdministrativeUnits Sample.data Sample.prefixFuse
         "Kasanga, Kampala" 1000
       = Return (RankedResults results)
       /\ (List.length results <= 150)%nat.
Proof.
  split; [exact prefixFuse_respectsLimit|].
  split; [reflexivity|].
  destruct (search_multi_term_pool_cap Sample.data Sample.prefixFuse
              "Kasanga, Kampala" "Kasanga" "Kampala" []
              prefixFuse_respectsLimit eq_refl)
    as (_ & combined & _ & H).
  destruct (H 1000%Z) as (results & Hres & _ & Hlen).
  exists results. split; assumption.
Defined.

(** * Further properties of the code *)

(** ** Strings: trimming and containment *)

Module TrimFacts.
Import JsString.

Lemma trimEnd_cons c r :
  trimEnd r <> EmptyString -> trimEnd (String c r) = String c (trimEnd r).
Proof. simpl. destruct (trimEnd r); [congruence | reflexivity]. Qed.

Lemma trimEnd_idempotent s : trimEnd (trimEnd s) = trimEnd s.
Proof.
  induction s as [|c r IH]; [reflexivity|].
  destruct (trimEnd r) as [|c' r'] eqn:E.
  - simpl. rewrite E.
    destruct (isWhiteSpace c) eqn:Ec; simpl; [reflexivity|].
    now rewrite Ec.
  - rewrite (trimEnd_cons c r) by (rewrite E; discriminate).
    rewrite E in *. rewrite trimEnd_cons by (rewrite IH; discriminate).
    now rewrite IH.
Qed.

Lemma trimStart_head s :
  trimStart s = EmptyString
  \/ exists c r, trimStart s = String c r /\ isWhiteSpace c = false.
Proof.
  induction s as [|c r IH]; simpl; [now left|].
  destruct (isWhiteSpace c) eqn:Ec; [exact IH|].
  right. now exists c, r.
Qed.

Lemma trimEnd_head c r :
  isWhiteSpace c = false -> exists r', trimEnd (String c r) = String c r'.
Proof.
  intros Hc. simpl. destruct (trimEnd r); rewrite ?Hc; eauto.
Qed.

Lemma trim_idempotent s : trim (trim s) = trim s.
Proof.
  unfold trim.
  destruct (trimStart_head s) as [-> | (c & r & -> & Hc)];
    [reflexivity|].
  destruct (trimEnd_head c r Hc) as [r' Hr'].
  rewrite Hr'. cbn [trimStart]. rewrite Hc, <- Hr'.
  apply trimEnd_idempotent.
Qed.

Lemma anyChar_trimStart p s :
  anyChar p (trimStart s) = true -> anyChar p s = true.
Proof.
  induction s as [|c r IH]; simpl; [auto|].
  destruct (isWhiteSpace c); [|auto].
  intros H. rewrite (IH H). apply orb_true_r.
Qed.

Lemma anyChar_trimEnd p s :
  anyChar p (trimEnd s) = true -> anyChar p s = true.
Proof.
  induction s as [|c r IH]; simpl; [auto|].
  destruct (trimEnd r) as [|c' r'].
  - destruct (isWhiteSpace c); simpl; [discriminate|].
    rewrite orb_false_r. intros ->. reflexivity.
  - cbn [anyChar]. intros H. apply orb_prop in H as [H | H].
    + now rewrite H.
    + rewrite (IH H). apply orb_true_r.
Qed.

Lemma anyChar_trim p s : anyChar p (trim s) = true -> anyChar p s = true.
Proof. intros H. now apply anyChar_trimStart, anyChar_trimEnd. Qed.

Lemma anyChar_rev_append p a b :
  anyChar p (rev_append a b) = anyChar p a || anyChar p b.
Proof.
  revert b. induction a as [|c r IH]; intros b; simpl; [reflexivity|].
  rewrite IH. simpl. destruct (p c), (anyChar p r), (anyChar p b);
    reflexivity.
Qed.

(** A string without white space is left alone by [trim]. *)
Lemma trimEnd_no_whiteSpace s :
  anyChar isWhiteSpace s = false -> trimEnd s = s.
Proof.
  induction s as [|c r IH]; simpl; [reflexivity|].
  intros H. apply orb_false_elim in H as [Hc Hr].
  rewrite (IH Hr). destruct r; [now rewrite Hc | reflexivity].
Qed.

Lemma trim_no_whiteSpace s : anyChar isWhiteSpace s = false -> trim s = s.
Proof.
  intros H. unfold trim.
  assert (trimStart s = s) as ->.
  { destruct s as [|c r]; [reflexivity|]. simpl in *.
    apply orb_false_elim in H as [-> _]. reflexivity. }
  now apply trimEnd_no_whiteSpace.
Qed.

Lemma startsWith_trimEnd s : startsWith (trimEnd s) s = true.
Proof.
  induction s as [|c r IH]; simpl; [reflexivity|].
  destruct (trimEnd r) as [|c' r'].
  - destruct (isWhiteSpace c); simpl; [reflexivity|].
    now rewrite Ascii.eqb_refl.
  - simpl. rewrite Ascii.eqb_refl. exact IH.
Qed.

Lemma includes_startsWith s sub :
  startsWith sub s = true -> includes s sub = true.
Proof. intros H. destruct s; simpl; now rewrite H. Qed.

(** The trimmed string occurs in the string. *)
Lemma includes_trim s : includes s (trim s) = true.
Proof.
  unfold trim. induction s as [|c r IH]; [reflexivity|].
  cbn [trimStart]. destruct (isWhiteSpace c).
  - cbn [includes]. rewrite IH. apply orb_true_r.
  - apply includes_startsWith, startsWith_trimEnd.
Qed.

Lemma trimEnd_empty_blank s : trimEnd s = EmptyString -> isBlank s = true.
Proof.
  induction s as [|c r IH]; simpl; [reflexivity|].
  destruct (trimEnd r) as [|c' r']; [|discriminate].
  destruct (isWhiteSpace c); [|discriminate].
  intros _. now apply IH.
Qed.

Lemma trim_empty_blank s : trim s = EmptyString -> isBlank s = true.
Proof.
  unfold trim. induction s as [|c r IH]; [reflexivity|].
  cbn [trimStart isBlank]. destruct (isWhiteSpace c) eqn:Ec.
  - exact IH.
  - intros H. apply trimEnd_empty_blank in H. cbn [isBlank] in H.
    rewrite Ec in H. discriminate.
Qed.

Lemma toLowerChar_idempotent c : toLowerChar (toLowerChar c) = toLowerChar c.
Proof. destruct c as [[] [] [] [] [] [] [] []]; reflexivity. Qed.

Lemma toLowerCase_idempotent s : toLowerCase (toLowerCase s) = toLowerCase s.
Proof.
  induction s as [|c r IH]; simpl; [reflexivity|].
  now rewrite toLowerChar_idempotent, IH.
Qed.

Lemma toLowerCase_trimStart s :
  toLowerCase (trimStart s) = trimStart (toLowerCase s).
Proof.
  induction s as [|c r IH]; simpl; [reflexivity|].
  rewrite BlankFacts.whiteSpace_toLowerChar. destruct (isWhiteSpace c); [exact IH|].
  reflexivity.
Qed.

Lemma toLowerCase_trimEnd s :
  toLowerCase (trimEnd s) = trimEnd (toLowerCase s).
Proof.
  induction s as [|c r IH]; simpl; [reflexivity|].
  rewrite <- IH, BlankFacts.whiteSpace_toLowerChar.
  destruct (trimEnd r) as [|c' r']; simpl.
  - destruct (isWhiteSpace c); reflexivity.
  - reflexivity.
Qed.

Lemma toLowerCase_trim s : toLowerCase (trim s) = trim (toLowerCase s).
Proof.
  unfold trim. now rewrite toLowerCase_trimEnd, toLowerCase_trimStart.
Qed.

End TrimFacts.

(** ** The query parser *)

Module ParseFacts.
Import JsString Separator.

Lemma matchAt_None_not_punct c r :
  matchAt (String c r) = None -> isPunct c = false.
Proof.
  unfold matchAt, matchPunct, isPunct.
  destruct (Ascii.eqb c "," || Ascii.eqb c ";"); [discriminate | reflexivity].
Qed.

(** No piece of the split holds a comma or a semicolon. *)
Lemma splitFrom_no_punct s : forall skip piece,
  anyChar isPunct piece = false ->
  Forall (fun p => anyChar isPunct p = false) (splitFrom skip piece s).
Proof.
  induction s as [|c r IH]; intros skip piece Hp.
  - simpl. constructor; [|constructor].
    rewrite TrimFacts.anyChar_rev_append, Hp. reflexivity.
  - cbn [splitFrom]. destruct skip as [|k]; [|now apply IH].
    destruct (matchAt (String c r)) as [n|] eqn:Em.
    + constructor; [|now apply IH].
      rewrite TrimFacts.anyChar_rev_append, Hp. reflexivity.
    + apply IH. simpl. now rewrite (matchAt_None_not_punct c r Em), Hp.
Qed.

Lemma parseQuery_In query t :
  In t (parseQuery query) ->
  t <> EmptyString /\ exists p, In p (split query) /\ t = trim p.
Proof.
  unfold parseQuery. rewrite filter_In, in_map_iff.
  intros [(p & <- & Hp) Hlen]. split; [|eauto].
  destruct (trim p); [discriminate | discriminate].
Qed.

End ParseFacts.

(** X1.  Every term [parseQuery] returns is non-empty, is its own trim (it
    has no white space at either end) and holds neither a comma nor a
    semicolon. *)
Theorem parseQuery_terms_clean query t :
  In t (parseQuery query) ->
  t <> EmptyString
  /\ JsString.trim t = t
  /\ anyChar isPunct t = false.
Proof.
  intros H. destruct (ParseFacts.parseQuery_In query t H)
    as (Hne & p & Hp & ->).
  split; [exact Hne|]. split; [apply TrimFacts.trim_idempotent|].
  pose proof (ParseFacts.splitFrom_no_punct query 0 EmptyString eq_refl)
    as Hall.
  rewrite List.Forall_forall in Hall. specialize (Hall p Hp).
  destruct (anyChar isPunct (JsString.trim p)) eqn:E; [|reflexivity].
  apply TrimFacts.anyChar_trim in E. congruence.
Qed.

Lemma parseQuery_terms_clean_witness :
  In "Kampala" (parseQuery "  Nakawa ,; Kampala  ")
  /\ "Kampala" <> EmptyString
  /\ JsString.trim "Kampala" = "Kampala"
  /\ anyChar isPunct "Kampala" = false.
Proof.
  assert (In "Kampala" (parseQuery "  Nakawa ,; Kampala  ")) as H
    by (vm_compute; auto).
  split; [exact H|].
  exact (parseQuery_terms_clean "  Nakawa ,; Kampala  " "Kampala" H).
Defined.

Module SplitFacts.
Import JsString Separator.

Lemma whiteSpaceRun_le s : (whiteSpaceRun s <= String.length s)%nat.
Proof.
  induction s as [|c r IH]; simpl; [lia|].
  destruct (isWhiteSpace c); simpl; lia.
Qed.

Lemma length_drop n s :
  String.length (drop n s) = (String.length s - n)%nat.
Proof.
  revert s. induction n as [|n IH]; intros [|c r]; simpl; try lia.
  apply IH.
Qed.

Lemma matchWord_length w s :
  matchWord w s = true -> (String.length w <= String.length s)%nat.
Proof.
  revert s. induction w as [|a w IH]; intros [|b s]; simpl;
    try lia; try discriminate.
  intros H. apply andb_prop in H as [_ H]. apply IH in H. lia.
Qed.

Lemma matchSpacedWord_Some w s n :
  matchSpacedWord w s = Some n ->
  (1 <= n <= String.length s)%nat.
Proof.
  unfold matchSpacedWord.
  destruct (0 <? whiteSpaceRun s)%nat eqn:E1; [|discriminate].
  destruct (matchWord w (drop (whiteSpaceRun s) s)) eqn:E2; [|discriminate].
  destruct (0 <? whiteSpaceRun
                   (drop (String.length w) (drop (whiteSpaceRun s) s)))%nat
    eqn:E3; [|discriminate].
  simpl. intros [= <-].
  apply Nat.ltb_lt in E1. apply matchWord_length in E2.
  pose proof (whiteSpaceRun_le
                (drop (String.length w) (drop (whiteSpaceRun s) s))) as H.
  pose proof (whiteSpaceRun_le s) as Hs.
  rewrite !length_drop in *. lia.
Qed.

(** A match is not empty and lies within the string. *)
Lemma matchAt_Some s n :
  matchAt s = Some n -> (1 <= n <= String.length s)%nat.
Proof.
  unfold matchAt.
  destruct (matchPunct s) as [k|] eqn:Ep.
  - intros [= <-]. unfold matchPunct in Ep. destruct s as [|c r];
      [discriminate|].
    destruct (Ascii.eqb c "," || Ascii.eqb c ";"); [|discriminate].
    injection Ep as <-. simpl. lia.
  - destruct (matchSpacedWord "in" s) as [k|] eqn:Ei.
    + intros [= <-]. now apply matchSpacedWord_Some in Ei.
    + apply matchSpacedWord_Some.
Qed.

Section BeforePunct.

Variable sep : ascii.
Variable b : string.
Hypothesis Hsep : isPunct sep = true.

Lemma punct_not_whiteSpace : isWhiteSpace sep = false.
Proof using Hsep.
  unfold isPunct in Hsep. apply orb_prop in Hsep as [H | H];
    apply Ascii.eqb_eq in H; subst sep; reflexivity.
Qed.

Lemma whiteSpaceRun_before s :
  whiteSpaceRun (s ++ String sep b) = whiteSpaceRun s.
Proof using Hsep.
  induction s as [|c r IH]; simpl.
  - now rewrite punct_not_whiteSpace.
  - now rewrite IH.
Qed.

Lemma drop_before n s :
  (n <= String.length s)%nat ->
  drop n (s ++ String sep b) = drop n s ++ String sep b.
Proof using Type.
  revert s. induction n as [|n IH]; intros [|c r]; simpl; try lia;
    try reflexivity.
  intros H. apply IH. lia.
Qed.

(** The separator character is no letter of the two words. *)
Lemma matchWord_before w s :
  w = "in" \/ w = "at" ->
  matchWord w (s ++ String sep b) = matchWord w s.
Proof using Hsep.
  assert (forall a, a = "i"%char \/ a = "n"%char \/ a = "a"%char
                    \/ a = "t"%char ->
                    Ascii.eqb (canonicalize a) (canonicalize sep) = false)
    as Hletter.
  { assert (sep = ","%char \/ sep = ";"%char) as Hcases.
    { unfold isPunct in Hsep. apply orb_prop in Hsep as [H | H];
        apply Ascii.eqb_eq in H; auto. }
    intros a Ha.
    destruct Hcases as [-> | ->], Ha as [-> | [-> | [-> | ->]]];
      reflexivity. }
  assert (forall w' s',
             (forall a, anyChar (Ascii.eqb a) w' = true ->
                        Ascii.eqb (canonicalize a) (canonicalize sep)
                        = false) ->
             matchWord w' (s' ++ String sep b) = matchWord w' s') as Hgen.
  { clear w s. induction w' as [|a w IH]; intros s Hw; [reflexivity|].
    destruct s as [|c r].
    - simpl. rewrite Hw; [reflexivity|]. simpl.
      now rewrite Ascii.eqb_refl.
    - change (String c r ++ String sep b)
        with (String c (r ++ String sep b)).
      cbn [matchWord]. rewrite IH; [reflexivity|].
      intros a' Ha'. apply Hw. simpl. rewrite Ha'. apply orb_true_r. }
  intros [-> | ->]; apply Hgen; intros a Ha; apply Hletter;
    simpl in Ha; rewrite orb_false_r in Ha;
    apply orb_prop in Ha as [Ha | Ha]; apply Ascii.eqb_eq in Ha; auto.
Qed.

Lemma matchSpacedWord_before w s :
  w = "in" \/ w = "at" ->
  matchSpacedWord w (s ++ String sep b) = matchSpacedWord w s.
Proof using Hsep.
  intros Hw. unfold matchSpacedWord.
  rewrite whiteSpaceRun_before.
  rewrite drop_before by apply whiteSpaceRun_le.
  rewrite (matchWord_before w _ Hw).
  destruct (matchWord w (drop (whiteSpaceRun s) s)) eqn:Em.
  - apply matchWord_length in Em.
    rewrite drop_before by exact Em.
    now rewrite whiteSpaceRun_before.
  - now rewrite !andb_false_r.
Qed.

Lemma matchAt_before c r :
  matchAt (String c r ++ String sep b) = matchAt (String c r).
Proof using Hsep.
  unfold matchAt.
  rewrite !matchSpacedWord_before by auto. reflexivity.
Qed.

Lemma matchAt_punct : matchAt (String sep b) = Some 1%nat.
Proof using Hsep.
  unfold matchAt, matchPunct. unfold isPunct in Hsep. now rewrite Hsep.
Qed.

(** Splitting up to a comma or semicolon, then after it. *)
Lemma splitFrom_before s : forall skip piece,
  (skip <= String.length s)%nat ->
  splitFrom skip piece (s ++ String sep b)
  = (splitFrom skip piece s ++ split b)%list.
Proof using Hsep.
  induction s as [|c r IH]; intros skip piece Hskip.
  - simpl in Hskip. assert (skip = 0)%nat as -> by lia.
    change (EmptyString ++ String sep b) with (String sep b).
    cbn [splitFrom]. rewrite matchAt_punct. reflexivity.
  - change (String c r ++ String sep b)
      with (String c (r ++ String sep b)).
    cbn [splitFrom]. destruct skip as [|k].
    + change (String c (r ++ String sep b))
        with (String c r ++ String sep b).
      rewrite matchAt_before.
      destruct (matchAt (String c r)) as [n|] eqn:Em.
      * apply matchAt_Some in Em. simpl in Em.
        rewrite IH by lia. reflexivity.
      * apply IH. lia.
    + apply IH. simpl in Hskip. lia.
Qed.

End BeforePunct.

End SplitFacts.

(** X2.  A comma or a semicolon cuts the query in two independent parts:
    the terms of [a ++ sep ++ b] are the terms of [a] followed by the
    terms of [b]. *)
Theorem parseQuery_punct_concat (a b : string) (sep : ascii) :
  isPunct sep = true ->
  parseQuery (a ++ String sep b) = (parseQuery a ++ parseQuery b)%list.
Proof.
  intros Hsep. unfold parseQuery, Separator.split.
  rewrite (SplitFacts.splitFrom_before sep b Hsep a 0 EmptyString)
    by lia.
  now rewrite List.map_app, List.filter_app.
Qed.

Lemma parseQuery_punct_concat_witness :
  isPunct ";" = true
  /\ parseQuery ("Bugolobi in Nakawa" ++ String ";" " Kampala")
     = (parseQuery "Bugolobi in Nakawa" ++ parseQuery " Kampala")%list
  /\ parseQuery "Bugolobi in Nakawa; Kampala"
     = ["Bugolobi"; "Nakawa"; "Kampala"].
Proof.
  split; [reflexivity|]. split; [|reflexivity].
  exact (parseQuery_punct_concat "Bugolobi in Nakawa" " Kampala" ";"
           eq_refl).
Defined.

Module WordFacts.
Import JsString Separator.

Lemma rev_append_app a b r :
  rev_append a b ++ r = rev_append a (b ++ r).
Proof.
  revert b. induction a as [|c a IH]; intros b; simpl; [reflexivity|].
  apply IH.
Qed.

Lemma matchAt_word_char c r :
  isWhiteSpace c = false -> isPunct c = false ->
  matchAt (String c r) = None.
Proof.
  intros Hw Hp. unfold matchAt, matchPunct, matchSpacedWord.
  unfold isPunct in Hp. rewrite Hp. simpl. now rewrite Hw.
Qed.

Lemma splitFrom_word s : forall piece,
  anyChar isWhiteSpace s = false -> anyChar isPunct s = false ->
  splitFrom 0 piece s = [rev_append piece EmptyString ++ s].
Proof.
  induction s as [|c r IH]; intros piece Hw Hp.
  - simpl. now rewrite rev_append_app.
  - simpl in Hw, Hp.
    apply orb_false_elim in Hw as [Hwc Hwr].
    apply orb_false_elim in Hp as [Hpc Hpr].
    cbn [splitFrom]. rewrite (matchAt_word_char c r Hwc Hpc).
    rewrite (IH _ Hwr Hpr). simpl. now rewrite !rev_append_app.
Qed.

End WordFacts.

(** X3.  A query that is one word (not empty, no white space, no comma or
    semicolon) parses to itself as its only term, and the search is the
    single-term one for that word: the word's matches sorted by similarity
    and cut by [slice(0, maxResults)]. *)
Theorem search_single_word data newFuse query maxResults :
  query <> EmptyString ->
  anyChar JsString.isWhiteSpace query = false ->
  anyChar isPunct query = false ->
  parseQuery query = [query]
  /\ searchAdministrativeUnits data newFuse query maxResults
     = Return (PlainResults
         (JsArray.slice0 maxResults
            (JsArray.sort byScore
               (fuzzySearchSingleTerm data newFuse query maxResults)))).
Proof.
  intros Hne Hw Hp.
  assert (parseQuery query = [query]) as Hparse.
  { unfold parseQuery, Separator.split.
    rewrite (WordFacts.splitFrom_word query EmptyString Hw Hp).
    change (JsString.rev_append EmptyString EmptyString ++ query)
      with query.
    simpl. rewrite (TrimFacts.trim_no_whiteSpace query Hw).
    destruct query; [congruence | reflexivity]. }
  split; [exact Hparse|].
  unfold searchAdministrativeUnits. now rewrite Hparse.
Qed.

Lemma search_single_word_witness :
  "Kampala" <> EmptyString
  /\ anyChar JsString.isWhiteSpace "Kampala" = false
  /\ anyChar isPunct "Kampala" = false
  /\ parseQuery "Kampala" = ["Kampala"]
  /\ searchAdministrativeUnits Sample.data Sample.prefixFuse "Kampala" 5
     = Return (PlainResults
         (JsArray.slice0 5
            (JsArray.sort byScore
               (fuzzySearchSingleTerm Sample.data Sample.prefixFuse
                  "Kampala" 5)))).
Proof.
  assert ("Kampala" <> EmptyString) as Hne by discriminate.
  split; [exact Hne|]. split; [reflexivity|]. split; [reflexivity|].
  exact (search_single_word Sample.data Sample.prefixFuse "Kampala" 5
           Hne eq_refl eq_refl).
Defined.

(** ** The exact search *)

Lemma exactLevel_In {A : Type} (type : UnitType) (id name : A -> string)
    (hierarchy : A -> Hierarchy.t) (lowerQuery : string) (l : list A) r :
  In r (exactLevel type id name hierarchy lowerQuery l)
  <-> exists x, In x l /\ nameMatches lowerQuery (name x) = true
                /\ r = ExactResult.mk type (id x) (name x) (hierarchy x).
Proof.
  unfold exactLevel, nameMatches. rewrite in_map_iff. split.
  - intros (x & <- & Hx). apply filter_In in Hx as [Hin Hm]. eauto.
  - intros (x & Hin & Hm & ->). exists x. split; [reflexivity|].
    now apply filter_In.
Qed.

Lemma truthy_nonempty s : s <> EmptyString -> JsString.truthy s = true.
Proof. destruct s; [congruence | reflexivity]. Qed.

Lemma exactSearch_levels data query :
  lowerQueryOf query <> EmptyString ->
  exactSearchAdministrativeUnits data query
  = (exactLevel DistrictT District.id District.name
       (fun d => getDistrictHierarchy data (District.id d))
       (lowerQueryOf query) (districts data)
     ++ exactLevel CountyT County.id County.name
       (fun c => getCountyHierarchy data (County.id c))
       (lowerQueryOf query) (counties data)
     ++ exactLevel SubCountyT SubCounty.id SubCounty.name
       (fun s => getSubCountyHierarchy data (SubCounty.id s))
       (lowerQueryOf query) (subCounties data)
     ++ exactLevel ParishT Parish.id Parish.name
       (fun p => getParishHierarchy data (Parish.id p))
       (lowerQueryOf query) (parishes data)
     ++ exactLevel VillageT Village.id Village.name
       (getVillageHierarchy data) (lowerQueryOf query) (villages data))%list.
Proof.
  intros H. unfold exactSearchAdministrativeUnits.
  fold (lowerQueryOf query). now rewrite (truthy_nonempty _ H).
Qed.

Lemma exactSearch_In data query r :
  lowerQueryOf query <> EmptyString ->
  In r (exactSearchAdministrativeUnits data query)
  <-> (exists d, In d (districts data)
         /\ nameMatches (lowerQueryOf query) (District.name d) = true
         /\ r = districtEntry data d)
      \/ (exists c, In c (counties data)
            /\ nameMatches (lowerQueryOf query) (County.name c) = true
            /\ r = countyEntry data c)
      \/ (exists x, In x (subCounties data)
            /\ nameMatches (lowerQueryOf query) (SubCounty.name x) = true
            /\ r = subCountyEntry data x)
      \/ (exists x, In x (parishes data)
            /\ nameMatches (lowerQueryOf query) (Parish.name x) = true
            /\ r = parishEntry data x)
      \/ (exists v, In v (villages data)
            /\ nameMatches (lowerQueryOf query) (Village.name v) = true
            /\ r = villageEntry data v).
Proof.
  intros H. rewrite (exactSearch_levels data query H).
  rewrite !in_app_iff, !exactLevel_In. reflexivity.
Qed.

(** X4.  Soundness and completeness of the exact search.  For a query that
    is not blank, the results are exactly the entries of the rows, of all
    five collections, whose lower-cased name contains the lower-cased,
    trimmed query: every result is such an entry (so its name contains the
    query up to case), and every such row has its entry among the
    results. *)
Theorem exactSearch_sound_and_complete data query :
  lowerQueryOf query <> EmptyString ->
  (forall r, In r (exactSearchAdministrativeUnits data query) ->
     nameMatches (lowerQueryOf query) (ExactResult.name r) = true)
  /\ (forall d, In d (districts data) ->
        nameMatches (lowerQueryOf query) (District.name d) = true ->
        In (districtEntry data d)
          (exactSearchAdministrativeUnits data query))
  /\ (forall c, In c (counties data) ->
        nameMatches (lowerQueryOf query) (County.name c) = true ->
        In (countyEntry data c) (exactSearchAdministrativeUnits data query))
  /\ (forall x, In x (subCounties data) ->
        nameMatches (lowerQueryOf query) (SubCounty.name x) = true ->
        In (subCountyEntry data x)
          (exactSearchAdministrativeUnits data query))
  /\ (forall x, In x (parishes data) ->
        nameMatches (lowerQueryOf query) (Parish.name x) = true ->
        In (parishEntry data x) (exactSearchAdministrativeUnits data query))
  /\ (forall v, In v (villages data) ->
        nameMatches (lowerQueryOf query) (Village.name v) = true ->
        In (villageEntry data v)
          (exactSearchAdministrativeUnits data query)).
Proof.
  intros H. split; [|repeat split].
  - intros r Hr. apply (exactSearch_In data query r H) in Hr.
    destruct Hr as [(x & _ & Hm & ->) | [(x & _ & Hm & ->)
      | [(x & _ & Hm & ->) | [(x & _ & Hm & ->) | (x & _ & Hm & ->)]]]];
      exact Hm.
  - intros d Hd Hm. apply (exactSearch_In data query _ H). left. eauto.
  - intros c Hc Hm. apply (exactSearch_In data query _ H).
    right; left. eauto.
  - intros x Hx Hm. apply (exactSearch_In data query _ H).
    right; right; left. eauto.
  - intros x Hx Hm. apply (exactSearch_In data query _ H).
    right; right; right; left. eauto.
  - intros v Hv Hm. apply (exactSearch_In data query _ H).
    right; right; right; right. eauto.
Qed.

Lemma exactSearch_sound_and_complete_witness :
  lowerQueryOf " NAK " <> EmptyString
  /\ In (SubCounty.mk "s2" "Nakawa" "c3") (subCounties Sample.data)
  /\ nameMatches (lowerQueryOf " NAK ") "Nakawa" = true
  /\ In (subCountyEntry Sample.data (SubCounty.mk "s2" "Nakawa" "c3"))
       (exactSearchAdministrativeUnits Sample.data " NAK ").
Proof.
  assert (lowerQueryOf " NAK " <> EmptyString) as H by discriminate.
  assert (In (SubCounty.mk "s2" "Nakawa" "c3") (subCounties Sample.data))
    as Hin by (simpl; auto).
  split; [exact H|]. split; [exact Hin|]. split; [reflexivity|].
  destruct (exactSearch_sound_and_complete Sample.data " NAK " H)
    as (_ & _ & _ & Hs & _).
  exact (Hs (SubCounty.mk "s2" "Nakawa" "c3") Hin eq_refl).
Defined.

Lemma StronglySorted_app {A : Type} (R : A -> A -> Prop) l1 l2 :
  StronglySorted R l1 -> StronglySorted R l2 ->
  (forall x y, In x l1 -> In y l2 -> R x y) ->
  StronglySorted R (l1 ++ l2).
Proof.
  intros H1 H2 H12. induction H1 as [|x r Hr IH Hx]; simpl; [exact H2|].
  constructor.
  - apply IH. intros a b Ha Hb. apply H12; [now right | exact Hb].
  - apply List.Forall_forall. intros y Hy.
    apply in_app_iff in Hy as [Hy | Hy].
    + rewrite List.Forall_forall in Hx. now apply Hx.
    + apply H12; [now left | exact Hy].
Qed.

Lemma StronglySorted_all {A : Type} (R : A -> A -> Prop) l :
  (forall x y, In x l -> In y l -> R x y) -> StronglySorted R l.
Proof.
  induction l as [|x r IH]; intros H; constructor.
  - apply IH. intros a b Ha Hb. apply H; now right.
  - apply List.Forall_forall. intros y Hy. apply H; [now left | now right].
Qed.

(** A concatenation of blocks is sorted by a key when the key is constant
    on each block and the blocks come in the order of their keys. *)
Lemma StronglySorted_blocks {A : Type} (key : A -> nat) k l rest :
  (forall x, In x l -> key x = k) ->
  (forall y, In y rest -> (k <= key y)%nat) ->
  StronglySorted (fun a b => (key a <= key b)%nat) rest ->
  StronglySorted (fun a b => (key a <= key b)%nat) (l ++ rest).
Proof.
  intros Hl Hrest Hsorted. apply StronglySorted_app.
  - apply StronglySorted_all. intros x y Hx Hy.
    rewrite (Hl x Hx), (Hl y Hy). lia.
  - exact Hsorted.
  - intros x y Hx Hy. rewrite (Hl x Hx). now apply Hrest.
Qed.

Lemma exactLevel_type {A : Type} (type : UnitType) (id name : A -> string)
    (hierarchy : A -> Hierarchy.t) (lowerQuery : string) (l : list A) r :
  In r (exactLevel type id name hierarchy lowerQuery l) ->
  ExactResult.type r = type.
Proof.
  intros H. apply exactLevel_In in H as (x & _ & _ & ->). reflexivity.
Qed.

(** X5.  The results of the exact search come level by level: districts
    first, then counties, sub-counties, parishes and villages. *)
Theorem exactSearch_level_order data query :
  StronglySorted exactLevelOrdered
    (exactSearchAdministrativeUnits data query).
Proof.
  destruct (String.eqb_spec (lowerQueryOf query) EmptyString) as [He|Hne].
  - unfold exactSearchAdministrativeUnits. fold (lowerQueryOf query).
    rewrite He. constructor.
  - rewrite (exactSearch_levels data query Hne).
    unfold exactLevelOrdered.
    apply (StronglySorted_blocks
             (fun r => rank (ExactResult.type r)) 1).
    { intros x Hx. now rewrite (exactLevel_type _ _ _ _ _ _ _ Hx). }
    { intros y Hy. destruct (ExactResult.type y); simpl; lia. }
    apply (StronglySorted_blocks
             (fun r => rank (ExactResult.type r)) 2).
    { intros x Hx. now rewrite (exactLevel_type _ _ _ _ _ _ _ Hx). }
    { intros y Hy. rewrite !in_app_iff in Hy.
      destruct Hy as [Hy | [Hy | Hy]];
        rewrite (exactLevel_type _ _ _ _ _ _ _ Hy); simpl; lia. }
    apply (StronglySorted_blocks
             (fun r => rank (ExactResult.type r)) 3).
    { intros x Hx. now rewrite (exactLevel_type _ _ _ _ _ _ _ Hx). }
    { intros y Hy. rewrite !in_app_iff in Hy.
      destruct Hy as [Hy | Hy];
        rewrite (exactLevel_type _ _ _ _ _ _ _ Hy); simpl; lia. }
    apply (StronglySorted_blocks
             (fun r => rank (ExactResult.type r)) 4).
    { intros x Hx. now rewrite (exactLevel_type _ _ _ _ _ _ _ Hx). }
    { intros y Hy.
      rewrite (exactLevel_type _ _ _ _ _ _ _ Hy); simpl; lia. }
    apply StronglySorted_all. intros x y Hx Hy.
    rewrite (exactLevel_type _ _ _ _ _ _ _ Hx),
      (exactLevel_type _ _ _ _ _ _ _ Hy). lia.
Qed.

Lemma lowerQueryOf_toLowerCase query :
  lowerQueryOf (JsString.toLowerCase query) = lowerQueryOf query.
Proof.
  unfold lowerQueryOf. now rewrite TrimFacts.toLowerCase_idempotent.
Qed.

Lemma lowerQueryOf_trim query :
  lowerQueryOf (JsString.trim query) = lowerQueryOf query.
Proof.
  unfold lowerQueryOf.
  now rewrite TrimFacts.toLowerCase_trim, TrimFacts.trim_idempotent.
Qed.

(** X6.  The exact search does not depend on the case of the query nor
    on white space around it: lower-casing the query, or trimming it,
    leaves the result list unchanged. *)
Theorem exactSearch_ignores_case_and_margins data query :
  exactSearchAdministrativeUnits data (JsString.toLowerCase query)
  = exactSearchAdministrativeUnits data query
  /\ exactSearchAdministrativeUnits data (JsString.trim query)
     = exactSearchAdministrativeUnits data query.
Proof.
  unfold exactSearchAdministrativeUnits.
  fold (lowerQueryOf (JsString.toLowerCase query))
    (lowerQueryOf (JsString.trim query)) (lowerQueryOf query).
  now rewrite lowerQueryOf_toLowerCase, lowerQueryOf_trim.
Qed.

Lemma own_name_matches name :
  isBlank name = false ->
  lowerQueryOf name <> EmptyString
  /\ nameMatches (lowerQueryOf name) name = true.
Proof.
  intros H. split.
  - intros He. apply TrimFacts.trim_empty_blank in He.
    rewrite BlankFacts.isBlank_toLowerCase in He. congruence.
  - apply TrimFacts.includes_trim.
Qed.

(** X7.  Searching for the name of a row finds the row: for every row of
    a collection whose name is not blank, the exact search for that name
    has the row's entry among its results. *)
Theorem exactSearch_finds_own_name data :
  (forall d, In d (districts data) -> isBlank (District.name d) = false ->
     In (districtEntry data d)
       (exactSearchAdministrativeUnits data (District.name d)))
  /\ (forall c, In c (counties data) -> isBlank (County.name c) = false ->
        In (countyEntry data c)
          (exactSearchAdministrativeUnits data (County.name c)))
  /\ (forall x, In x (subCounties data) ->
        isBlank (SubCounty.name x) = false ->
        In (subCountyEntry data x)
          (exactSearchAdministrativeUnits data (SubCounty.name x)))
  /\ (forall x, In x (parishes data) -> isBlank (Parish.name x) = false ->
        In (parishEntry data x)
          (exactSearchAdministrativeUnits data (Parish.name x)))
  /\ (forall v, In v (villages data) -> isBlank (Village.name v) = false ->
        In (villageEntry data v)
          (exactSearchAdministrativeUnits data (Village.name v))).
Proof.
  repeat split.
  - intros d Hd Hb. destruct (own_name_matches _ Hb) as [Hne Hm].
    apply (exactSearch_In data _ _ Hne). left. eauto.
  - intros c Hc Hb. destruct (own_name_matches _ Hb) as [Hne Hm].
    apply (exactSearch_In data _ _ Hne). right; left. eauto.
  - intros x Hx Hb. destruct (own_name_matches _ Hb) as [Hne Hm].
    apply (exactSearch_In data _ _ Hne). right; right; left. eauto.
  - intros x Hx Hb. destruct (own_name_matches _ Hb) as [Hne Hm].
    apply (exactSearch_In data _ _ Hne). right; right; right; left. eauto.
  - intros v Hv Hb. destruct (own_name_matches _ Hb) as [Hne Hm].
    apply (exactSearch_In data _ _ Hne). right; right; right; right. eauto.
Qed.

Lemma exactSearch_finds_own_name_witness :
  In (Village.mk "v3" "Bukasa" "p9") (villages Sample.data)
  /\ isBlank "Bukasa" = false
  /\ In (villageEntry Sample.data (Village.mk "v3" "Bukasa" "p9"))
       (exactSearchAdministrativeUnits Sample.data "Bukasa").
Proof.
  assert (In (Village.mk "v3" "Bukasa" "p9") (villages Sample.data))
    as Hin by (simpl; auto).
  split; [exact Hin|]. split; [reflexivity|].
  destruct (exactSearch_finds_own_name Sample.data) as (_ & _ & _ & _ & Hv).
  exact (Hv (Village.mk "v3" "Bukasa" "p9") Hin eq_refl).
Defined.

(** ** The lookup maps *)

Section BuildMap.

Context {A : Type}.
Variable key : A -> string.

Let step (m : gmap string A) (x : A) : gmap string A := <[key x := x]> m.

Lemma fold_keeps_other (l : list A) (m : gmap string A) i :
  (forall y, In y l -> key y <> i) -> foldl step m l !! i = m !! i.
Proof using Type.
  revert m. induction l as [|y r IH]; intros m H; simpl; [reflexivity|].
  rewrite IH by (intros z Hz; apply H; now right).
  unfold step. apply lookup_insert_ne. apply H. now left.
Qed.

Lemma fold_keeps_key (l : list A) (m : gmap string A) i :
  is_Some (m !! i) -> is_Some (foldl step m l !! i).
Proof using Type.
  revert m. induction l as [|y r IH]; intros m H; simpl; [exact H|].
  apply IH. unfold step. destruct (decide (key y = i)) as [<-|Hne].
  - rewrite lookup_insert_eq. eauto.
  - now rewrite lookup_insert_ne.
Qed.

Lemma fold_key_of_value (l : list A) (m : gmap string A) :
  (forall i x, m !! i = Some x -> key x = i) ->
  forall i x, foldl step m l !! i = Some x -> key x = i.
Proof using Type.
  revert m. induction l as [|y r IH]; intros m Hm; simpl; [exact Hm|].
  apply IH. intros i x. unfold step.
  destruct (decide (key y = i)) as [<-|Hne].
  - rewrite lookup_insert_eq. congruence.
  - rewrite lookup_insert_ne by exact Hne. apply Hm.
Qed.

Lemma buildMap_key_of_value (l : list A) i x :
  buildMap key l !! i = Some x -> key x = i.
Proof using Type.
  apply fold_key_of_value. intros j y. rewrite lookup_empty. discriminate.
Qed.

Lemma buildMap_last_wins (l1 l2 : list A) x :
  (forall y, In y l2 -> key y <> key x) ->
  buildMap key (l1 ++ x :: l2) !! key x = Some x.
Proof using Type.
  intros H. unfold buildMap. rewrite foldl_app. simpl.
  fold step. rewrite fold_keeps_other by exact H.
  unfold step. apply lookup_insert_eq.
Qed.

End BuildMap.

(** X8.  The lookup maps built from a collection.  A lookup only ever
    returns a row of the collection, and one whose identifier is the key
    asked for; a key is missing exactly when no row has it; of several
    rows with the same identifier the last one is the one found; and when
    identifiers are unique every row is found under its own. *)
Theorem buildMap_lookup {A : Type} (key : A -> string) (l : list A) :
  (forall i x, buildMap key l !! i = Some x -> In x l /\ key x = i)
  /\ (forall i, buildMap key l !! i = None
                <-> forall x, In x l -> key x <> i)
  /\ (forall l1 x l2, l = (l1 ++ x :: l2)%list ->
        (forall y, In y l2 -> key y <> key x) ->
        buildMap key l !! key x = Some x)
  /\ (List.NoDup (List.map key l) ->
      forall x, In x l -> buildMap key l !! key x = Some x).
Proof.
  split; [|split; [|split]].
  - intros i x H. split; [now apply buildMap_lookup_In in H|].
    now apply buildMap_key_of_value in H.
  - intros i. split.
    + intros Hnone x Hx Hk.
      assert (is_Some (buildMap key l !! i)) as [y Hy].
      { apply in_split in Hx as (l1 & l2 & ->). unfold buildMap.
        rewrite foldl_app. simpl. apply fold_keeps_key.
        rewrite <- Hk, lookup_insert_eq. eauto. }
      congruence.
    + intros H. unfold buildMap.
      rewrite (fold_keeps_other key l ∅ i H). apply lookup_empty.
  - intros l1 x l2 -> H. now apply buildMap_last_wins.
  - intros Hnodup x Hx. apply in_split in Hx as (l1 & l2 & ->).
    apply buildMap_last_wins. intros y Hy Hk.
    rewrite List.map_app in Hnodup. simpl in Hnodup.
    apply NoDup_remove_2 in Hnodup. apply Hnodup.
    apply in_or_app. right. rewrite <- Hk. now apply in_map.
Qed.

Lemma buildMap_lookup_witness :
  List.NoDup (List.map County.id (counties Sample.data))
  /\ In (County.mk "c2" "Kampala Central" "32") (counties Sample.data)
  /\ countyMap Sample.data !! "c2"
     = Some (County.mk "c2" "Kampala Central" "32").
Proof.
  assert (List.NoDup (List.map County.id (counties Sample.data)))
    as Hnodup.
  { simpl. repeat constructor; simpl; intuition discriminate. }
  assert (In (County.mk "c2" "Kampala Central" "32")
            (counties Sample.data)) as Hin by (simpl; auto).
  split; [exact Hnodup|]. split; [exact Hin|].
  destruct (buildMap_lookup County.id (counties Sample.data))
    as (_ & _ & _ & H).
  exact (H Hnodup _ Hin).
Defined.

(** ** Hierarchy accessors *)

(** X9.  The accessors compose along the parent links.  The hierarchy of a
    unit is the hierarchy of its parent with the unit's own name added
    (the parent's hierarchy being empty when the parent reference does
    not resolve), and an identifier that is not in the map gives the
    empty hierarchy. *)
Theorem hierarchy_extends_parent data :
  (forall v,
     getVillageHierarchy data v
     = setVillage (getParishHierarchy data (Village.parish v))
         (Village.name v))
  /\ (forall id,
        getParishHierarchy data id
        = match parishMap data !! id with
          | Some p =>
              setParish (getSubCountyHierarchy data (Parish.subcounty p))
                (Parish.name p)
          | None => Hierarchy.empty
          end)
  /\ (forall id,
        getSubCountyHierarchy data id
        = match subCountyMap data !! id with
          | Some s =>
              setSubCounty (getCountyHierarchy data (SubCounty.county s))
                (SubCounty.name s)
          | None => Hierarchy.empty
          end)
  /\ (forall id,
        getCountyHierarchy data id
        = match countyMap data !! id with
          | Some c =>
              setCounty (getDistrictHierarchy data (County.district c))
                (County.name c)
          | None => Hierarchy.empty
          end).
Proof.
  repeat split.
  - intros v. unfold getVillageHierarchy, getParishHierarchy,
      getSubCountyHierarchy, getCountyHierarchy, setVillage.
    destruct (parishMap data !! Village.parish v) as [p|]; cbn;
      [|reflexivity].
    destruct (subCountyMap data !! Parish.subcounty p) as [s|]; cbn;
      [|reflexivity].
    destruct (countyMap data !! SubCounty.county s) as [c|]; cbn;
      [|reflexivity].
    destruct (districtMap data !! County.district c); reflexivity.
  - intros id. unfold getParishHierarchy, getSubCountyHierarchy,
      getCountyHierarchy, setParish.
    destruct (parishMap data !! id) as [p|]; cbn; [|reflexivity].
    destruct (subCountyMap data !! Parish.subcounty p) as [s|]; cbn;
      [|reflexivity].
    destruct (countyMap data !! SubCounty.county s) as [c|]; cbn;
      [|reflexivity].
    destruct (districtMap data !! County.district c); reflexivity.
  - intros id. unfold getSubCountyHierarchy, getCountyHierarchy,
      setSubCounty.
    destruct (subCountyMap data !! id) as [s|]; cbn; [|reflexivity].
    destruct (countyMap data !! SubCounty.county s) as [c|]; cbn;
      [|reflexivity].
    destruct (districtMap data !! County.district c); reflexivity.
  - intros id. unfold getCountyHierarchy, getDistrictHierarchy, setCounty.
    destruct (countyMap data !! id) as [c|]; cbn; [|reflexivity].
    destruct (districtMap data !! County.district c); reflexivity.
Qed.

(** X10.  The names an accessor returns are the names of the units the
    identifier chain of the same unit identifies, level by level: for a
    district, county, sub-county or parish identifier, and for a village
    that is the first of its identifier in the collection. *)
Theorem hierarchy_names_of_chain data :
  (forall id,
     getDistrictHierarchy data id
     = namesOfChain data (getHierarchyChain data "district" id))
  /\ (forall id,
        getCountyHierarchy data id
        = namesOfChain data (getHierarchyChain data "county" id))
  /\ (forall id,
        getSubCountyHierarchy data id
        = namesOfChain data (getHierarchyChain data "subCounty" id))
  /\ (forall id,
        getParishHierarchy data id
        = namesOfChain data (getHierarchyChain data "parish" id))
  /\ (forall v,
        List.find (fun x => String.eqb (Village.id x) (Village.id v))
          (villages data) = Some v ->
        getVillageHierarchy data v
        = namesOfChain data
            (getHierarchyChain data "village" (Village.id v))).
Proof.
  unfold namesOfChain, districtName, countyName, subCountyName, parishName,
    villageName, getHierarchyChain.
  repeat split.
  - intros id. unfold getDistrictHierarchy. cbn.
    destruct (districtMap data !! id); reflexivity.
  - intros id. unfold getCountyHierarchy. cbn -[lookup].
    destruct (countyMap data !! id) as [c|] eqn:E; cbn; [|reflexivity].
    rewrite E. reflexivity.
  - intros id. unfold getSubCountyHierarchy. cbn -[lookup].
    destruct (subCountyMap data !! id) as [s|] eqn:E; cbn; [|reflexivity].
    rewrite E. cbn.
    destruct (countyMap data !! SubCounty.county s); reflexivity.
  - intros id. unfold getParishHierarchy. cbn -[lookup].
    destruct (parishMap data !! id) as [p|] eqn:E; cbn; [|reflexivity].
    rewrite E. cbn.
    destruct (subCountyMap data !! Parish.subcounty p) as [s|]; cbn;
      [|reflexivity].
    destruct (countyMap data !! SubCounty.county s); reflexivity.
  - intros v Hv. unfold getVillageHierarchy. cbn -[lookup List.find].
    rewrite Hv. cbn. rewrite Hv. cbn.
    destruct (parishMap data !! Village.parish v) as [p|]; cbn;
      [|reflexivity].
    destruct (subCountyMap data !! Parish.subcounty p) as [s|]; cbn;
      [|reflexivity].
    destruct (countyMap data !! SubCounty.county s); reflexivity.
Qed.

Lemma hierarchy_names_of_chain_witness :
  List.find (fun x => String.eqb (Village.id x) "v1") (villages Sample.data)
  = Some (Village.mk "v1" "Kasanga" "p1")
  /\ getVillageHierarchy Sample.data (Village.mk "v1" "Kasanga" "p1")
     = namesOfChain Sample.data
         (getHierarchyChain Sample.data "village" "v1").
Proof.
  split; [reflexivity|].
  destruct (hierarchy_names_of_chain Sample.data) as (_ & _ & _ & _ & H).
  exact (H (Village.mk "v1" "Kasanga" "p1") eq_refl).
Defined.

(** ** Relatedness along the chain *)

Lemma chain_own_id data t id :
  t = DistrictT \/ known data t id ->
  ownId t (getHierarchyChain data (typeName t) id) = Some id.
Proof.
  unfold getHierarchyChain, known. destruct t; cbn -[lookup List.find];
    intros [Ht | [x Hx]]; try discriminate; try reflexivity;
    rewrite Hx; reflexivity.
Qed.

(** X11.  A unit is related to every unit of its own chain.  If the chain
    of [r1] holds, at a level from district to parish, the non-empty
    identifier of [r2], and [r2] is a result of that level whose
    identifier is known (for a district it need not be), then
    [areRelated r1 r2] is true. *)
Theorem areRelated_chain_member data (r1 r2 : SearchResult.t) :
  SearchResult.type r2 <> VillageT ->
  SearchResult.type r2 = DistrictT
  \/ known data (SearchResult.type r2) (SearchResult.id r2) ->
  SearchResult.id r2 <> EmptyString ->
  ownId (SearchResult.type r2) (chainOf data r1)
  = Some (SearchResult.id r2) ->
  areRelated data r1 r2 = true.
Proof.
  intros Hv Hk Hne H1.
  pose proof (chain_own_id data _ _ Hk) as H2.
  fold (chainOf data r2) in H2.
  unfold areRelated. fold (chainOf data r1) (chainOf data r2).
  assert (forall level,
             level (chainOf data r1) = Some (SearchResult.id r2) ->
             level (chainOf data r2) = Some (SearchResult.id r2) ->
             sameTruthy (level (chainOf data r1)) (level (chainOf data r2))
             = true) as Hsame.
  { intros level Ha Hb. apply sameTruthy_true.
    exists (SearchResult.id r2). auto. }
  destruct (SearchResult.type r2); simpl in H1, H2;
    try congruence; rewrite (Hsame _ H1 H2);
    rewrite ?orb_true_r; reflexivity.
Qed.

Lemma areRelated_chain_member_witness :
  let village :=
    SearchResult.mk VillageT "v1" "Kasanga" 1 None Hierarchy.empty in
  let parish :=
    SearchResult.mk ParishT "p1" "Bugolobi" 1 None Hierarchy.empty in
  SearchResult.type parish <> VillageT
  /\ known Sample.data ParishT "p1"
  /\ SearchResult.id parish <> EmptyString
  /\ ownId ParishT (chainOf Sample.data village) = Some "p1"
  /\ areRelated Sample.data village parish = true.
Proof.
  intros village parish.
  assert (SearchResult.type parish <> VillageT) as H1 by discriminate.
  assert (known Sample.data ParishT "p1") as H2 by (vm_compute; eauto).
  assert (SearchResult.id parish <> EmptyString) as H3 by discriminate.
  assert (ownId ParishT (chainOf Sample.data village) = Some "p1") as H4
    by reflexivity.
  split; [exact H1|]. split; [exact H2|]. split; [exact H3|].
  split; [exact H4|].
  exact (areRelated_chain_member Sample.data village parish H1
           (or_intror H2) H3 H4).
Defined.

(** ** Multi-term search: counts and bounds *)

Lemma contributions_length data seed pools :
  (List.length (contributions data seed pools) <= List.length pools)%nat.
Proof.
  induction pools as [|pool later IH]; simpl; [lia|].
  destruct (firstRelated data seed pool); simpl; lia.
Qed.

Lemma contributions_In data seed pools r :
  In r (contributions data seed pools) ->
  exists pool, In pool pools /\ In r pool /\ areRelated data seed r = true.
Proof.
  induction pools as [|pool later IH]; simpl; [tauto|].
  destruct (firstRelated data seed pool) as [r'|] eqn:E.
  - intros [<- | H].
    + apply find_some in E as [Hin Hrel]. exists pool. auto.
    + destruct (IH H) as (p & Hp & Hr). exists p. auto.
  - intros H. destruct (IH H) as (p & Hp & Hr). exists p. auto.
Qed.

Lemma combinedResults_In data newFuse t1 later c :
  In c (combinedResults data newFuse (t1 :: later)) ->
  exists seed,
    In seed (poolOf data newFuse t1)
    /\ c = rankedSeed data (List.length (t1 :: later))
             (List.map (poolOf data newFuse) later) seed.
Proof.
  unfold combinedResults. rewrite in_map_iff.
  intros (seed & <- & Hseed). exists seed. split; [exact Hseed|].
  now rewrite combine_rankedSeed, termResultsOf_pools.
Qed.

Lemma slice0_In {A : Type} (end_ : Z) (l : list A) x :
  In x (JsArray.slice0 end_ l) -> In x l.
Proof.
  destruct (slice0_firstn end_ l) as [k ->]. intros H.
  rewrite <- (firstn_skipn k l). apply in_or_app. now left.
Qed.

(** X12.  In a multi-term search every combined result has a match count
    between 1 and the number of terms, and its hierarchy bonus is 1.0
    exactly when the count is 1 and 1.5 otherwise; so every returned
    result has [1 <= matchedTerms <= totalTerms]. *)
Theorem multi_term_match_count_bounds
    data newFuse query maxResults t1 t2 rest :
  parseQuery query = t1 :: t2 :: rest ->
  let n := Z.of_nat (List.length (t1 :: t2 :: rest)) in
  (forall c, In c (combinedResults data newFuse (t1 :: t2 :: rest)) ->
     (1 <= Combined.matchCount c <= n)%Z
     /\ ((Combined.matchCount c = 1%Z /\ Combined.hierarchyBonus c = 1.0%Q)
         \/ ((1 < Combined.matchCount c)%Z
             /\ Combined.hierarchyBonus c = 1.5%Q)))
  /\ exists results,
       searchAdministrativeUnits data newFuse query maxResults
       = Return (RankedResults results)
       /\ forall r, In r results ->
            MatchInfo.totalTerms (Ranked.matchInfo r) = n
            /\ (1 <= MatchInfo.matchedTerms (Ranked.matchInfo r) <= n)%Z.
Proof.
  intros Hterms n.
  assert (forall c, In c (combinedResults data newFuse (t1 :: t2 :: rest)) ->
            (1 <= Combined.matchCount c <= n)%Z
            /\ ((Combined.matchCount c = 1%Z
                 /\ Combined.hierarchyBonus c = 1.0%Q)
                \/ ((1 < Combined.matchCount c)%Z
                    /\ Combined.hierarchyBonus c = 1.5%Q))) as Hbounds.
  { intros c Hc. apply combinedResults_In in Hc as (seed & _ & ->).
    pose proof (contributions_length data seed
                  (List.map (poolOf data newFuse) (t2 :: rest))) as Hlen.
    rewrite length_map in Hlen.
    unfold rankedSeed, seedMatchCount, seedHierarchyBonus.
    cbn [Combined.matchCount Combined.hierarchyBonus].
    assert (n = Z.of_nat (S (List.length (t2 :: rest)))) as -> by reflexivity.
    destruct (contributions data seed
                (List.map (poolOf data newFuse) (t2 :: rest))) as [|r cs];
      cbn [List.length] in *.
    - split; [lia | left; split; [lia | reflexivity]].
    - split; [lia | right; split; [lia | reflexivity]]. }
  split; [exact Hbounds|].
  eexists. split; [exact (search_multi_term data newFuse query maxResults
                            t1 t2 rest Hterms)|].
  intros r Hr. apply in_map_iff in Hr as (c & <- & Hc).
  apply slice0_In in Hc.
  apply (Permutation_in _ (sort_Permutation byMatchCountThenScore _)) in Hc.
  simpl. split; [reflexivity|]. now apply Hbounds.
Qed.

Lemma multi_term_match_count_bounds_witness :
  parseQuery "Kasanga, Kampala" = ["Kasanga"; "Kampala"]
  /\ exists results,
       searchAdministrativeUnits Sample.data Sample.prefixFuse
         "Kasanga, Kampala" 100
       = Return (RankedResults results)
       /\ forall r, In r results ->
            MatchInfo.totalTerms (Ranked.matchInfo r) = 2%Z
            /\ (1 <= MatchInfo.matchedTerms (Ranked.matchInfo r) <= 2)%Z.
Proof.
  split; [reflexivity|].
  exact (proj2 (multi_term_match_count_bounds Sample.data Sample.prefixFuse
                  "Kasanga, Kampala" 100 "Kasanga" "Kampala" [] eq_refl)).
Defined.

Lemma total_score_bounds (init : Q) (found : list SearchResult.t) :
  (0 <= init)%Q ->
  (forall r, In r found ->
     (0 <= SearchResult.score r)%Q /\ (SearchResult.score r <= 1)%Q) ->
  let total :=
    List.fold_left (fun acc r => (acc + SearchResult.score r)%Q) found init in
  (0 <= total)%Q
  /\ (total <= init + inject_Z (Z.of_nat (List.length found)))%Q.
Proof.
  revert init. induction found as [|r rs IH]; intros init Hinit Hall.
  - simpl. split; [exact Hinit|].
    change (inject_Z (Z.of_nat 0)) with 0%Q. lra.
  - destruct (Hall r (or_introl eq_refl)) as [H0 H1].
    assert (0 <= init + SearchResult.score r)%Q as Hinit' by lra.
    destruct (IH _ Hinit' (fun x Hx => Hall x (or_intror Hx))) as [Ha Hb].
    cbn [List.fold_left List.length]. split; [exact Ha|].
    rewrite Nat2Z.inj_succ, <- Z.add_1_r, inject_Z_plus.
    change (inject_Z 1) with 1%Q. lra.
Qed.

Lemma unit_fraction (x n : Q) :
  (0 < n)%Q -> (0 <= x)%Q -> (x <= n)%Q ->
  (0 <= x / n)%Q /\ (x / n <= 1)%Q.
Proof.
  intros Hn H0 H1. split.
  - apply Qle_shift_div_l; [exact Hn | lra].
  - apply Qle_shift_div_r; [exact Hn | lra].
Qed.

(** X13.  When the similarities of the pools lie between 0 and 1, the
    combined score of every combined result of a multi-term search lies
    between 0 and 1.5, and that of a seed that no later term confirms
    (match count 1) is at most 0.25. *)
Theorem multi_term_combined_score_bounds
    data newFuse t1 t2 rest c :
  poolScoresInUnit data newFuse (t1 :: t2 :: rest) ->
  In c (combinedResults data newFuse (t1 :: t2 :: rest)) ->
  (0 <= Combined.combinedScore c)%Q
  /\ (Combined.combinedScore c <= 1.5)%Q
  /\ (Combined.matchCount c = 1%Z ->
      (Combined.combinedScore c <= 0.25)%Q).
Proof.
  intros Hunit Hc.
  apply combinedResults_In in Hc as (seed & Hseed & ->).
  set (pools := List.map (poolOf data newFuse) (t2 :: rest)).
  set (n := List.length (t1 :: t2 :: rest)).
  destruct (Hunit t1 seed (or_introl eq_refl) Hseed) as [Hs0 Hs1].
  assert (forall r, In r (contributions data seed pools) ->
            (0 <= SearchResult.score r)%Q /\ (SearchResult.score r <= 1)%Q)
    as Hfound.
  { intros r Hr. apply contributions_In in Hr as (pool & Hpool & Hin & _).
    unfold pools in Hpool. apply in_map_iff in Hpool as (term & <- & Hterm).
    apply (Hunit term r); [now right | exact Hin]. }
  destruct (total_score_bounds _ _ Hs0 Hfound) as [Ht0 Ht1].
  fold (seedTotalScore data seed pools) in Ht0, Ht1.
  pose proof (contributions_length data seed pools) as Hlen.
  unfold pools in Hlen at 2. rewrite length_map in Hlen.
  assert (2 <= inject_Z (Z.of_nat n))%Q as Hn2.
  { change 2%Q with (inject_Z 2). rewrite <- Zle_Qle.
    unfold n. cbn [List.length]. lia. }
  assert (inject_Z (Z.of_nat (List.length (contributions data seed pools)))
          + 1 <= inject_Z (Z.of_nat n))%Q as Hmn.
  { change 1%Q with (inject_Z 1). rewrite <- inject_Z_plus, <- Zle_Qle.
    unfold n. cbn [List.length] in *. lia. }
  assert (0 <= inject_Z (Z.of_nat (List.length
                                     (contributions data seed pools))))%Q
    as Hm0.
  { change 0%Q with (inject_Z 0). rewrite <- Zle_Qle. lia. }
  assert (inject_Z (seedMatchCount data seed pools)
          == 1 + inject_Z (Z.of_nat (List.length
                                       (contributions data seed pools))))%Q
    as Hmc.
  { unfold seedMatchCount. rewrite inject_Z_plus. reflexivity. }
  destruct (unit_fraction (seedTotalScore data seed pools)
              (inject_Z (Z.of_nat n))) as [Ha0 Ha1]; [lra | lra | lra |].
  destruct (unit_fraction (inject_Z (seedMatchCount data seed pools))
              (inject_Z (Z.of_nat n))) as [Hb0 Hb1]; [lra | lra | lra |].
  unfold rankedSeed, seedCombinedScore.
  cbn [Combined.combinedScore Combined.matchCount].
  fold pools n.
  set (a := (seedTotalScore data seed pools / inject_Z (Z.of_nat n))%Q)
    in *.
  set (b := (inject_Z (seedMatchCount data seed pools)
             / inject_Z (Z.of_nat n))%Q) in *.
  assert ((seedHierarchyBonus data seed pools == 1)%Q
          \/ (seedHierarchyBonus data seed pools == 3 # 2)%Q) as Hbonus.
  { unfold seedHierarchyBonus.
    destruct (contributions data seed pools); [left | right]; reflexivity. }
  split; [|split].
  - destruct Hbonus as [-> | ->]; nra.
  - destruct Hbonus as [-> | ->]; nra.
  - intros Hone. unfold seedMatchCount in Hone.
    assert (contributions data seed pools = []) as Hnil.
    { destruct (contributions data seed pools); [reflexivity|].
      cbn [List.length] in Hone. lia. }
    assert (a <= 1 # 2)%Q as Ha2.
    { unfold a. apply Qle_shift_div_r; [lra|].
      unfold seedTotalScore. rewrite Hnil. simpl. lra. }
    assert (b <= 1 # 2)%Q as Hb2.
    { unfold b. apply Qle_shift_div_r; [lra|].
      unfold seedMatchCount. rewrite Hnil.
      change (inject_Z (1 + Z.of_nat (List.length (@nil SearchResult.t))))
        with 1%Q.
      lra. }
    unfold seedHierarchyBonus. rewrite Hnil. nra.
Qed.

Lemma multi_term_combined_score_bounds_witness :
  poolScoresInUnit Sample.data Sample.prefixFuse ["Kasanga"; "Kampala"]
  /\ Forall
       (fun c => (0 <= Combined.combinedScore c)%Q
                 /\ (Combined.combinedScore c <= 1.5)%Q
                 /\ (Combined.matchCount c = 1%Z ->
                     (Combined.combinedScore c <= 0.25)%Q))
       (combinedResults Sample.data Sample.prefixFuse
          ["Kasanga"; "Kampala"]).
Proof.
  assert (poolScoresInUnit Sample.data Sample.prefixFuse
            ["Kasanga"; "Kampala"]) as Hunit.
  { intros term r [<- | [<- | []]] Hr; vm_compute in Hr;
      repeat (destruct Hr as [<- | Hr];
              [split; vm_compute; discriminate|]);
      destruct Hr. }
  split; [exact Hunit|].
  apply List.Forall_forall. intros c Hc.
  exact (multi_term_combined_score_bounds Sample.data Sample.prefixFuse
           "Kasanga" "Kampala" [] c Hunit Hc).
Defined.

(** ** Multi-term search: the limit cuts one fixed ranking *)

Lemma slice0_kept {A : Type} (end_ : Z) (l : list A) :
  JsArray.slice0 end_ l = firstn (keptBySlice end_ (List.length l)) l.
Proof. reflexivity. Qed.

Lemma keptBySlice_le end_ len : (keptBySlice end_ len <= len)%nat.
Proof. unfold keptBySlice. destruct (Z.ltb_spec end_ 0); lia. Qed.

(** X14.  For a query of two or more terms there is one full ranking, with
    one entry per candidate of the first term's pool (each candidate
    without its [matchedTerm]), and every call returns a front part of
    it: [min(maxResults, size)] entries for a limit that is not negative,
    [max(size + maxResults, 0)] entries for a negative one.  A limit of
    at least the pool size returns an entry for every candidate. *)
Theorem multi_term_results_prefix data newFuse query t1 t2 rest :
  parseQuery query = t1 :: t2 :: rest ->
  exists full,
    Permutation (List.map Ranked.result full)
      (List.map withoutMatchedTerm (poolOf data newFuse t1))
    /\ forall maxResults,
         let kept :=
           keptBySlice maxResults
             (List.length (poolOf data newFuse t1)) in
         searchAdministrativeUnits data newFuse query maxResults
         = Return (RankedResults (firstn kept full))
         /\ List.length (firstn kept full) = kept
         /\ ((Z.of_nat (List.length (poolOf data newFuse t1))
              <= maxResults)%Z -> firstn kept full = full).
Proof.
  intros Hterms.
  set (n := List.length (t1 :: t2 :: rest)).
  set (combined := combinedResults data newFuse (t1 :: t2 :: rest)).
  set (sorted := JsArray.sort byMatchCountThenScore combined).
  assert (List.length sorted = List.length (poolOf data newFuse t1))
    as Hlen.
  { unfold sorted.
    rewrite (Permutation_length
               (sort_Permutation byMatchCountThenScore combined)).
    unfold combined, combinedResults. apply length_map. }
  exists (List.map (finalize n) sorted). split.
  - rewrite List.map_map.
    change (fun x => Ranked.result (finalize n x))
      with (fun x => withoutMatchedTerm (Combined.base x)).
    rewrite <- (List.map_map Combined.base withoutMatchedTerm).
    apply Permutation_map.
    assert (List.map Combined.base combined = poolOf data newFuse t1)
      as <-.
    { unfold combined, combinedResults. rewrite List.map_map.
      unfold combine. cbn [Combined.base]. apply List.map_id. }
    apply Permutation_map. apply sort_Permutation.
  - intros maxResults kept. split; [|split].
    + rewrite (search_multi_term data newFuse query maxResults
                 t1 t2 rest Hterms).
      fold n combined sorted. rewrite slice0_kept, Hlen.
      fold kept. now rewrite firstn_map.
    + rewrite length_firstn, length_map, Hlen.
      pose proof (keptBySlice_le maxResults
                    (List.length (poolOf data newFuse t1))).
      fold kept in H. lia.
    + intros Hbig. apply firstn_all2. rewrite length_map, Hlen.
      unfold kept, keptBySlice.
      destruct (Z.ltb_spec maxResults 0); lia.
Qed.

Lemma multi_term_results_prefix_witness :
  parseQuery "Nakawa, Nowhere" = ["Nakawa"; "Nowhere"]
  /\ exists full,
       List.length full = 3%nat
       /\ searchAdministrativeUnits Sample.data Sample.prefixFuse
            "Nakawa, Nowhere" 2
          = Return (RankedResults (firstn 2 full))
       /\ searchAdministrativeUnits Sample.data Sample.prefixFuse
            "Nakawa, Nowhere" (-1)
          = Return (RankedResults (firstn 2 full))
       /\ searchAdministrativeUnits Sample.data Sample.prefixFuse
            "Nakawa, Nowhere" 50
          = Return (RankedResults full).
Proof.
  split; [reflexivity|].
  destruct (multi_term_results_prefix Sample.data Sample.prefixFuse
              "Nakawa, Nowhere" "Nakawa" "Nowhere" [] eq_refl)
    as (full & Hperm & Hcall).
  exists full.
  assert (List.length full = 3%nat) as Hlen.
  { apply Permutation_length in Hperm. rewrite !length_map in Hperm.
    rewrite Hperm. reflexivity. }
  split; [exact Hlen|].
  destruct (Hcall 2%Z) as (H2 & _ & _).
  destruct (Hcall (-1)%Z) as (Hm & _ & _).
  destruct (Hcall 50%Z) as (H50 & _ & Hall).
  split; [exact H2|]. split; [exact Hm|].
  rewrite H50. rewrite Hall; [reflexivity|]. vm_compute. discriminate.
Defined.

(** ** Single-term search: what is returned, and ties *)

Section StableByScore.

Variable S : SearchResult.t -> SearchResult.t -> Prop.

Let R (a b : SearchResult.t) : Prop :=
  (SearchResult.score b < SearchResult.score a)%Q
  \/ ((SearchResult.score a == SearchResult.score b)%Q /\ S a b).

Lemma insert_keeps_ties x l :
  StronglySorted R l -> Forall (S x) l ->
  StronglySorted R (JsArray.insert byScore x l).
Proof using Type.
  intros Hsorted. induction Hsorted as [|y r Hr IH Hy]; intros HS; simpl.
  - repeat constructor.
  - apply List.Forall_cons_iff in HS as [HSy HSr].
    destruct (Qle_bool (byScore x y) 0) eqn:E.
    + apply Qle_bool_iff in E. unfold byScore in E.
      constructor; [now constructor|].
      apply List.Forall_forall. intros z [<- | Hz].
      * unfold R.
        destruct (Qlt_le_dec (SearchResult.score y) (SearchResult.score x))
          as [Hlt|Hle]; [now left|].
        right. split; [lra | exact HSy].
      * rewrite List.Forall_forall in Hy, HSr.
        specialize (Hy z Hz). specialize (HSr z Hz). unfold R in *.
        destruct Hy as [Hlt | [Heq _]].
        -- left. lra.
        -- destruct (Qlt_le_dec (SearchResult.score y)
                       (SearchResult.score x)) as [Hlt|Hle].
           ++ left. lra.
           ++ right. split; [lra | exact HSr].
    + assert (SearchResult.score x < SearchResult.score y)%Q as Hlt.
      { destruct (Qlt_le_dec (SearchResult.score x) (SearchResult.score y))
          as [H|H]; [exact H|].
        assert (Qle_bool (byScore x y) 0 = true) as E'
          by (apply Qle_bool_iff; unfold byScore; lra).
        congruence. }
      constructor; [now apply IH|].
      eapply Permutation_Forall.
      * symmetry. apply insert_Permutation.
      * constructor; [now left | exact Hy].
Qed.

Lemma sort_keeps_ties l :
  StronglySorted S l -> StronglySorted R (JsArray.sort byScore l).
Proof using Type.
  induction 1 as [|x r Hr IH Hx]; simpl; [constructor|].
  apply insert_keeps_ties; [exact IH|].
  eapply Permutation_Forall; [|exact Hx].
  symmetry. apply sort_Permutation.
Qed.

End StableByScore.

Lemma fuzzySearchSingleTerm_by_level data newFuse term maxResults :
  StronglySorted
    (fun a b =>
       (rank (SearchResult.type a) <= rank (SearchResult.type b))%nat)
    (fuzzySearchSingleTerm data newFuse term maxResults).
Proof.
  unfold fuzzySearchSingleTerm.
  apply (StronglySorted_blocks (fun r => rank (SearchResult.type r)) 1).
  { intros x Hx. apply in_map_iff in Hx as (h & <- & _). reflexivity. }
  { intros y Hy. destruct (SearchResult.type y); simpl; lia. }
  apply (StronglySorted_blocks (fun r => rank (SearchResult.type r)) 2).
  { intros x Hx. apply in_map_iff in Hx as (h & <- & _). reflexivity. }
  { intros y Hy. rewrite !in_app_iff, !in_map_iff in Hy.
    destruct Hy as [(h & <- & _) | [(h & <- & _) | (h & <- & _)]];
      simpl; lia. }
  apply (StronglySorted_blocks (fun r => rank (SearchResult.type r)) 3).
  { intros x Hx. apply in_map_iff in Hx as (h & <- & _). reflexivity. }
  { intros y Hy. rewrite !in_app_iff, !in_map_iff in Hy.
    destruct Hy as [(h & <- & _) | (h & <- & _)]; simpl; lia. }
  apply (StronglySorted_blocks (fun r => rank (SearchResult.type r)) 4).
  { intros x Hx. apply in_map_iff in Hx as (h & <- & _). reflexivity. }
  { intros y Hy. apply in_map_iff in Hy as (h & <- & _). simpl. lia. }
  apply StronglySorted_all. intros x y Hx Hy.
  apply in_map_iff in Hx as (h & <- & _).
  apply in_map_iff in Hy as (h' & <- & _). simpl. lia.
Qed.

Lemma fuzzySearchSingleTerm_matchedTerm data newFuse term maxResults r :
  In r (fuzzySearchSingleTerm data newFuse term maxResults) ->
  SearchResult.matchedTerm r = Some term.
Proof.
  unfold fuzzySearchSingleTerm. rewrite !in_app_iff, !in_map_iff.
  intros [H | [H | [H | [H | H]]]]; destruct H as (h & <- & _);
    reflexivity.
Qed.

(** X15.  A single-term search returns only matches of its term, each
    stamped with the term, and in this order: by similarity, descending,
    and among matches of equal similarity by level (district, county,
    sub-county, parish, village), because the sort is stable and the
    matches are collected level by level. *)
Theorem single_term_results_ordered data newFuse query term maxResults :
  parseQuery query = [term] ->
  exists results,
    searchAdministrativeUnits data newFuse query maxResults
    = Return (PlainResults results)
    /\ (forall r, In r results ->
          In r (fuzzySearchSingleTerm data newFuse term maxResults)
          /\ SearchResult.matchedTerm r = Some term)
    /\ StronglySorted scoreThenLevel results.
Proof.
  intros Hterm.
  set (pool := fuzzySearchSingleTerm data newFuse term maxResults).
  exists (JsArray.slice0 maxResults (JsArray.sort byScore pool)).
  split; [|split].
  - unfold searchAdministrativeUnits. now rewrite Hterm.
  - intros r Hr. apply slice0_In in Hr.
    apply (Permutation_in _ (sort_Permutation byScore pool)) in Hr.
    split; [exact Hr|].
    now apply (fuzzySearchSingleTerm_matchedTerm data newFuse term
                 maxResults).
  - destruct (slice0_firstn maxResults (JsArray.sort byScore pool))
      as [k ->].
    apply StronglySorted_firstn.
    apply (sort_keeps_ties
             (fun a b =>
                (rank (SearchResult.type a)
                 <= rank (SearchResult.type b))%nat)).
    apply fuzzySearchSingleTerm_by_level.
Qed.

Lemma single_term_results_ordered_witness :
  parseQuery "Ka" = ["Ka"]
  /\ exists results,
       searchAdministrativeUnits Sample.data Sample.prefixFuse "Ka" 10
       = Return (PlainResults results)
       /\ (forall r, In r results ->
             In r (fuzzySearchSingleTerm Sample.data Sample.prefixFuse
                     "Ka" 10)
             /\ SearchResult.matchedTerm r = Some "Ka")
       /\ StronglySorted scoreThenLevel results.
Proof.
  split; [reflexivity|].
  exact (single_term_results_ordered Sample.data Sample.prefixFuse
           "Ka" "Ka" 10 eq_refl).
Defined.

(** ** Substrings *)

Module IncludesFacts.
Import JsString.

Lemma startsWith_iff p s :
  startsWith p s = true <-> exists post, s = p ++ post.
Proof.
  revert s. induction p as [|a p IH]; intros s; simpl.
  - split; [intros _; now exists s | reflexivity].
  - destruct s as [|b s].
    + split; [discriminate | intros [post H]; discriminate].
    + rewrite andb_true_iff, Ascii.eqb_eq, IH. split.
      * intros [-> [post ->]]. now exists post.
      * intros [post H]. injection H as -> ->. split; [reflexivity|].
        now exists post.
Qed.

Lemma includes_iff s sub :
  includes s sub = true <-> exists pre post, s = pre ++ sub ++ post.
Proof.
  induction s as [|c r IH].
  - simpl. rewrite orb_false_r, startsWith_iff. split.
    + intros [post H]. now exists EmptyString, post.
    + intros (pre & post & H). destruct pre as [|a pre]; [|discriminate].
      now exists post.
  - cbn [includes]. rewrite orb_true_iff, startsWith_iff, IH. split.
    + intros [[post H] | (pre & post & H)].
      * now exists EmptyString, post.
      * exists (String c pre), post. simpl. now rewrite H.
    + intros (pre & post & H). destruct pre as [|a pre].
      * left. now exists post.
      * right. simpl in H. injection H as -> ->. now exists pre, post.
Qed.

Lemma append_assoc (a b c : string) : (a ++ b) ++ c = a ++ (b ++ c).
Proof.
  induction a as [|x a IH]; [reflexivity|].
  change (String x ((a ++ b) ++ c) = String x (a ++ (b ++ c))).
  now f_equal.
Qed.

(** Containment is transitive. *)
Lemma includes_trans a b c :
  includes a b = true -> includes b c = true -> includes a c = true.
Proof.
  rewrite !includes_iff.
  intros (p1 & q1 & ->) (p2 & q2 & ->).
  exists (p1 ++ p2), (q2 ++ q1).
  now rewrite !append_assoc.
Qed.

End IncludesFacts.

(** X16.  Refining the query narrows the exact search: if the compared
    form of [query1] is not empty and occurs in the compared form of
    [query2], every result for [query2] is a result for [query1]. *)
Theorem exactSearch_refinement data query1 query2 r :
  lowerQueryOf query1 <> EmptyString ->
  JsString.includes (lowerQueryOf query2) (lowerQueryOf query1) = true ->
  In r (exactSearchAdministrativeUnits data query2) ->
  In r (exactSearchAdministrativeUnits data query1).
Proof.
  intros H1 Hsub Hr.
  destruct (String.eqb_spec (lowerQueryOf query2) EmptyString) as [He|H2].
  - unfold exactSearchAdministrativeUnits in Hr.
    fold (lowerQueryOf query2) in Hr. rewrite He in Hr. destruct Hr.
  - apply (exactSearch_In data query1 r H1).
    apply (exactSearch_In data query2 r H2) in Hr.
    assert (forall name,
               nameMatches (lowerQueryOf query2) name = true ->
               nameMatches (lowerQueryOf query1) name = true) as Hnarrow.
    { intros name Hm. unfold nameMatches in *.
      exact (IncludesFacts.includes_trans _ _ _ Hm Hsub). }
    destruct Hr as [(x & Hx & Hm & ->) | [(x & Hx & Hm & ->)
      | [(x & Hx & Hm & ->) | [(x & Hx & Hm & ->) | (x & Hx & Hm & ->)]]]].
    + left. eauto.
    + right; left. eauto.
    + right; right; left. eauto.
    + right; right; right; left. eauto.
    + right; right; right; right. eauto.
Qed.

Lemma exactSearch_refinement_witness :
  lowerQueryOf "Ka" <> EmptyString
  /\ JsString.includes (lowerQueryOf "Kampala") (lowerQueryOf "Ka") = true
  /\ In (districtEntry Sample.data (District.mk "32" "Kampala"))
       (exactSearchAdministrativeUnits Sample.data "Kampala")
  /\ In (districtEntry Sample.data (District.mk "32" "Kampala"))
       (exactSearchAdministrativeUnits Sample.data "Ka").
Proof.
  assert (lowerQueryOf "Ka" <> EmptyString) as H1 by discriminate.
  assert (In (districtEntry Sample.data (District.mk "32" "Kampala"))
            (exactSearchAdministrativeUnits Sample.data "Kampala")) as Hr
    by (vm_compute; auto).
  split; [exact H1|]. split; [reflexivity|]. split; [exact Hr|].
  exact (exactSearch_refinement Sample.data "Ka" "Kampala" _ H1 eq_refl Hr).
Defined.

(** ** Relatedness of units that do not resolve *)

Lemma sameTruthy_None_l b : sameTruthy None b = false.
Proof. reflexivity. Qed.

Lemma sameTruthy_None_r a : sameTruthy a None = false.
Proof. destruct a; reflexivity. Qed.

Lemma chain_unknown data t id :
  t <> DistrictT -> ~ known data t id ->
  getHierarchyChain data (typeName t) id = Chain.empty.
Proof.
  unfold getHierarchyChain, known. intros Ht Hk.
  destruct t; cbn -[lookup List.find]; try congruence.
  - destruct (countyMap data !! id); [exfalso; apply Hk; eauto|reflexivity].
  - destruct (subCountyMap data !! id);
      [exfalso; apply Hk; eauto|reflexivity].
  - destruct (parishMap data !! id); [exfalso; apply Hk; eauto|reflexivity].
  - destruct (List.find _ (villages data));
      [exfalso; apply Hk; eauto|reflexivity].
Qed.

(** X17.  A result that does not resolve is related to nothing: if the
    identifier of a county, sub-county, parish or village result is
    unknown at its level, [areRelated] is false with it on either side,
    whatever the other result is. *)
Theorem areRelated_unknown_unit data (r other : SearchResult.t) :
  SearchResult.type r <> DistrictT ->
  ~ known data (SearchResult.type r) (SearchResult.id r) ->
  areRelated data r other = false /\ areRelated data other r = false.
Proof.
  intros Ht Hk. unfold areRelated.
  rewrite (chain_unknown data _ _ Ht Hk). cbn [Chain.districtId
    Chain.countyId Chain.subCountyId Chain.parishId Chain.empty].
  now rewrite !sameTruthy_None_r.
Qed.

Lemma areRelated_unknown_unit_witness :
  let ghost :=
    SearchResult.mk ParishT "p9" "Missing" 1 None Hierarchy.empty in
  SearchResult.type ghost <> DistrictT
  /\ ~ known Sample.data ParishT "p9"
  /\ areRelated Sample.data ghost Sample.kasangaV2 = false
  /\ areRelated Sample.data Sample.kasangaV2 ghost = false.
Proof.
  intros ghost.
  assert (SearchResult.type ghost <> DistrictT) as Ht by discriminate.
  assert (~ known Sample.data ParishT "p9") as Hk.
  { intros [p Hp]. vm_compute in Hp. discriminate. }
  split; [exact Ht|]. split; [exact Hk|].
  exact (areRelated_unknown_unit Sample.data ghost Sample.kasangaV2 Ht Hk).
Defined.

(** ** Multi-term search: when the bonus applies *)

Lemma firstRelated_hasRelated data seed pool :
  (exists r, firstRelated data seed pool = Some r)
  <-> hasRelated data seed pool = true.
Proof.
  unfold firstRelated, hasRelated. induction pool as [|x rest IH]; simpl.
  - split; [intros [r H]; discriminate | discriminate].
  - destruct (areRelated data seed x); simpl; [split; eauto|exact IH].
Qed.

Lemma contributions_count data seed pools :
  List.length (contributions data seed pools)
  = List.length (List.filter (hasRelated data seed) pools).
Proof.
  induction pools as [|pool later IH]; simpl; [reflexivity|].
  destruct (firstRelated data seed pool) as [r|] eqn:E.
  - rewrite (proj1 (firstRelated_hasRelated data seed pool))
      by (now exists r).
    simpl. now rewrite IH.
  - destruct (hasRelated data seed pool) eqn:Eh; [|exact IH].
    apply firstRelated_hasRelated in Eh as [r Hr]. congruence.
Qed.

(** X18.  In a multi-term search the match count of a seed is 1 plus the
    number of later terms whose pool holds a candidate related to the
    seed, and the hierarchy bonus is 1.5 exactly when there is such a
    term. *)
Theorem multi_term_match_count_meaning data newFuse t1 t2 rest c :
  In c (combinedResults data newFuse (t1 :: t2 :: rest)) ->
  let confirming :=
    List.filter
      (fun term => hasRelated data (Combined.base c)
                     (poolOf data newFuse term))
      (t2 :: rest) in
  In (Combined.base c) (poolOf data newFuse t1)
  /\ Combined.matchCount c = (1 + Z.of_nat (List.length confirming))%Z
  /\ (Combined.hierarchyBonus c = 1.5%Q <-> confirming <> []).
Proof.
  intros Hc. apply combinedResults_In in Hc as (seed & Hseed & ->).
  unfold rankedSeed, seedMatchCount, seedHierarchyBonus.
  cbn [Combined.base Combined.matchCount Combined.hierarchyBonus].
  assert (forall terms,
             List.length (List.filter (hasRelated data seed)
                            (List.map (poolOf data newFuse) terms))
             = List.length
                 (List.filter
                    (fun term => hasRelated data seed
                                   (poolOf data newFuse term)) terms))
    as Hmap.
  { induction terms as [|t ts IH]; simpl; [reflexivity|].
    destruct (hasRelated data seed (poolOf data newFuse t)); simpl;
      now rewrite IH. }
  pose proof (contributions_count data seed
                (List.map (poolOf data newFuse) (t2 :: rest))) as Hcount.
  rewrite Hmap in Hcount.
  split; [exact Hseed|]. split; [now rewrite Hcount|].
  destruct (contributions data seed
              (List.map (poolOf data newFuse) (t2 :: rest))) as [|r cs];
    destruct (List.filter _ (t2 :: rest)) as [|t ts];
    try discriminate.
  - split; [discriminate | congruence].
  - split; [discriminate | reflexivity].
Qed.

Lemma multi_term_match_count_meaning_witness :
  Forall
    (fun c =>
       Combined.matchCount c
       = (1 + Z.of_nat
                (List.length
                   (List.filter
                      (fun term => hasRelated Sample.data (Combined.base c)
                                     (poolOf Sample.data Sample.prefixFuse
                                        term))
                      ["Kampala"])))%Z)
    (combinedResults Sample.data Sample.prefixFuse ["Kasanga"; "Kampala"]).
Proof.
  apply List.Forall_forall. intros c Hc.
  exact (proj1 (proj2 (multi_term_match_count_meaning Sample.data
                         Sample.prefixFuse "Kasanga" "Kampala" [] c Hc))).
Defined.

(** ** The separator words *)

Module SeparatorWordFacts.
Import JsString Separator.

Lemma whiteSpaceRun_blank_app x s :
  isBlank x = true ->
  whiteSpaceRun (x ++ s) = (String.length x + whiteSpaceRun s)%nat.
Proof.
  induction x as [|c r IH]; simpl; [reflexivity|].
  intros H. apply andb_prop in H as [-> Hr]. now rewrite IH.
Qed.

Lemma length_append x s :
  String.length (x ++ s) = (String.length x + String.length s)%nat.
Proof. induction x as [|c r IH]; simpl; [reflexivity | now rewrite IH]. Qed.

Lemma drop_app_length x s : drop (String.length x) (x ++ s) = s.
Proof. induction x as [|c r IH]; simpl; [reflexivity | exact IH]. Qed.

Lemma splitFrom_skip x : forall piece s,
  splitFrom (String.length x) piece (x ++ s) = splitFrom 0 piece s.
Proof.
  induction x as [|c r IH]; intros piece s; [reflexivity|].
  change (String c r ++ s) with (String c (r ++ s)).
  cbn [String.length splitFrom]. apply IH.
Qed.

Lemma splitFrom_word_prefix a : forall piece s,
  anyChar isWhiteSpace a = false -> anyChar isPunct a = false ->
  splitFrom 0 piece (a ++ s) = splitFrom 0 (rev_append a piece) s.
Proof.
  induction a as [|c r IH]; intros piece s Hw Hp; [reflexivity|].
  simpl in Hw, Hp.
  apply orb_false_elim in Hw as [Hwc Hwr].
  apply orb_false_elim in Hp as [Hpc Hpr].
  change (String c r ++ s) with (String c (r ++ s)).
  cbn [splitFrom]. rewrite (WordFacts.matchAt_word_char c _ Hwc Hpc).
  now rewrite IH.
Qed.

Lemma rev_append_twice a : forall b c,
  rev_append (rev_append a b) c = rev_append b (a ++ c).
Proof.
  induction a as [|x a IH]; intros b c; simpl; [reflexivity|].
  now rewrite IH.
Qed.

Lemma word_head s :
  isWord s = true ->
  exists c r, s = String c r /\ isWhiteSpace c = false.
Proof.
  unfold isWord. destruct s as [|c r]; [discriminate|].
  simpl. intros H. apply andb_prop in H as [Hw _].
  apply negb_true_iff, orb_false_elim in Hw as [Hc _]. eauto.
Qed.

Lemma word_chars s :
  isWord s = true ->
  s <> EmptyString
  /\ anyChar isWhiteSpace s = false /\ anyChar isPunct s = false.
Proof.
  unfold isWord. intros H. apply andb_prop in H as [H Hp].
  apply andb_prop in H as [Hne Hw].
  apply negb_true_iff in Hne, Hw, Hp.
  repeat split; try assumption. now apply String.eqb_neq.
Qed.

Lemma spacing_parts s :
  isSpacing s = true -> (0 < String.length s)%nat /\ isBlank s = true.
Proof.
  unfold isSpacing. intros H. apply andb_prop in H as [Hne Hb].
  split; [|exact Hb]. destruct s; [discriminate | simpl; lia].
Qed.

(** A letter that lower-cases to one of the four separator letters is no
    white space and canonicalises like that letter. *)
Lemma separator_letter c l :
  l = "i"%char \/ l = "n"%char \/ l = "a"%char \/ l = "t"%char ->
  toLowerChar c = l ->
  isWhiteSpace c = false /\ canonicalize c = canonicalize l.
Proof.
  intros Hl Hc.
  assert (c = l \/ c = canonicalize l) as [-> | ->].
  { destruct Hl as [-> | [-> | [-> | ->]]]; revert Hc;
      destruct c as [[] [] [] [] [] [] [] []]; cbv; intros Hc;
      first [discriminate Hc | now left | now right]. }
  - destruct Hl as [-> | [-> | [-> | ->]]]; split; reflexivity.
  - destruct Hl as [-> | [-> | [-> | ->]]]; split; reflexivity.
Qed.

Section Spaced.

Variables ws1 w ws2 b : string.
Hypothesis Hws1 : isSpacing ws1 = true.
Hypothesis Hws2 : isSpacing ws2 = true.
Hypothesis Hb : isWord b = true.
Hypothesis Hw : toLowerCase w = "in" \/ toLowerCase w = "at".

Lemma separator_word_shape :
  exists c1 c2,
    w = String c1 (String c2 EmptyString)
    /\ isWhiteSpace c1 = false
    /\ ((canonicalize c1 = "I"%char /\ canonicalize c2 = "N"%char)
        \/ (canonicalize c1 = "A"%char /\ canonicalize c2 = "T"%char)).
Proof using Hw.
  destruct w as [|c1 [|c2 [|c3 r]]];
    try (destruct Hw as [H | H]; discriminate H).
  exists c1, c2. split; [reflexivity|].
  destruct Hw as [H | H]; simpl in H; injection H as H1 H2.
  - destruct (separator_letter c1 "i") as [Hs1 Hc1]; auto.
    destruct (separator_letter c2 "n") as [_ Hc2]; auto.
  - destruct (separator_letter c1 "a") as [Hs1 Hc1]; auto.
    destruct (separator_letter c2 "t") as [_ Hc2]; auto.
Qed.

Lemma matchAt_spaced_word :
  matchAt (ws1 ++ w ++ ws2 ++ b)
  = Some (String.length ws1 + 2 + String.length ws2)%nat.
Proof using Hws1 Hws2 Hb Hw.
  destruct (spacing_parts ws1 Hws1) as [Hlen1 Hblank1].
  destruct (spacing_parts ws2 Hws2) as [Hlen2 Hblank2].
  destruct (word_head b Hb) as (cb & rb & -> & Hcb).
  destruct separator_word_shape as (c1 & c2 & -> & Hc1 & Hcan).
  assert (whiteSpaceRun
            (ws1 ++ String c1 (String c2 EmptyString) ++ ws2 ++ String cb rb)
          = String.length ws1) as Hrun1.
  { rewrite (whiteSpaceRun_blank_app _ _ Hblank1). simpl.
    rewrite Hc1. lia. }
  assert (whiteSpaceRun (ws2 ++ String cb rb) = String.length ws2)
    as Hrun2.
  { rewrite (whiteSpaceRun_blank_app _ _ Hblank2). simpl.
    rewrite Hcb. lia. }
  assert (forall word,
             matchSpacedWord word
               (ws1 ++ String c1 (String c2 EmptyString) ++ ws2
                ++ String cb rb)
             = if matchWord word
                    (String c1 (String c2 EmptyString) ++ ws2
                     ++ String cb rb)
               then
                 if (0 <? whiteSpaceRun
                            (drop (String.length word)
                               (String c1 (String c2 EmptyString) ++ ws2
                                ++ String cb rb)))%nat
                 then Some (String.length ws1 + String.length word
                            + whiteSpaceRun
                                (drop (String.length word)
                                   (String c1 (String c2 EmptyString)
                                    ++ ws2 ++ String cb rb)))%nat
                 else None
               else None) as Hspaced.
  { intros word. unfold matchSpacedWord. rewrite Hrun1, drop_app_length.
    rewrite (proj2 (Nat.ltb_lt 0 (String.length ws1)) Hlen1).
    simpl. destruct (matchWord word _); reflexivity. }
  assert (matchPunct
            (ws1 ++ String c1 (String c2 EmptyString) ++ ws2
             ++ String cb rb) = None) as Hpunct.
  { destruct ws1 as [|c r]; [simpl in Hlen1; lia|].
    simpl in Hblank1. apply andb_prop in Hblank1 as [Hc _].
    simpl. now rewrite (BlankFacts.whiteSpace_not_punct c Hc). }
  unfold matchAt. rewrite Hpunct, !Hspaced.
  cbn [matchWord drop String.length].
  change (String c1 (String c2 EmptyString) ++ ws2 ++ String cb rb)
    with (String c1 (String c2 (ws2 ++ String cb rb))).
  cbn [matchWord drop]. rewrite Hrun2.
  rewrite (proj2 (Nat.ltb_lt 0 (String.length ws2)) Hlen2).
  destruct Hcan as [[-> ->] | [-> ->]]; reflexivity.
Qed.

End Spaced.

End SeparatorWordFacts.

(** X19.  The separator words.  For words [a] and [b] (not empty, no
    white space, comma or semicolon), a separator word [w] that is "in"
    or "at" in any mix of cases, and non-empty runs of white space on
    both sides of it, [a ws1 w ws2 b] parses to the two terms [a] and
    [b]. *)
Theorem parseQuery_separator_word (a ws1 w ws2 b : string) :
  isWord a = true -> isWord b = true ->
  isSpacing ws1 = true -> isSpacing ws2 = true ->
  JsString.toLowerCase w = "in" \/ JsString.toLowerCase w = "at" ->
  parseQuery (a ++ ws1 ++ w ++ ws2 ++ b) = [a; b].
Proof.
  intros Ha Hb Hws1 Hws2 Hw.
  destruct (SeparatorWordFacts.word_chars a Ha) as (Hane & Haw & Hap).
  destruct (SeparatorWordFacts.word_chars b Hb) as (Hbne & Hbw & Hbp).
  destruct (SeparatorWordFacts.spacing_parts ws1 Hws1) as [Hlen1 _].
  pose proof (SeparatorWordFacts.matchAt_spaced_word ws1 w ws2 b
                Hws1 Hws2 Hb Hw) as Hmatch.
  assert (String.length w = 2%nat) as Hwlen.
  { destruct (SeparatorWordFacts.separator_word_shape w Hw)
      as (c1 & c2 & -> & _). reflexivity. }
  unfold parseQuery, Separator.split.
  rewrite (SeparatorWordFacts.splitFrom_word_prefix a _ _ Haw Hap).
  destruct ws1 as [|c r]; [simpl in Hlen1; lia|].
  change (String c r ++ w ++ ws2 ++ b)
    with (String c (r ++ w ++ ws2 ++ b)) in *.
  cbn [Separator.splitFrom]. rewrite Hmatch.
  assert (Nat.pred (String.length (String c r) + 2 + String.length ws2)
          = String.length (r ++ w ++ ws2)) as ->.
  { rewrite !SeparatorWordFacts.length_append, Hwlen. simpl. lia. }
  replace (r ++ w ++ ws2 ++ b) with ((r ++ w ++ ws2) ++ b)
    by (now rewrite !IncludesFacts.append_assoc).
  rewrite SeparatorWordFacts.splitFrom_skip.
  rewrite (WordFacts.splitFrom_word b EmptyString Hbw Hbp).
  rewrite SeparatorWordFacts.rev_append_twice.
  change (JsString.rev_append EmptyString (a ++ EmptyString))
    with (a ++ EmptyString).
  change (JsString.rev_append EmptyString EmptyString ++ b) with b.
  assert (a ++ EmptyString = a) as ->.
  { clear. induction a as [|x a IH]; [reflexivity|].
    change (String x (a ++ EmptyString) = String x a). now f_equal. }
  cbn [List.map]. rewrite !TrimFacts.trim_no_whiteSpace by assumption.
  destruct a; [congruence|]. destruct b; [congruence|]. reflexivity.
Qed.

Lemma parseQuery_separator_word_witness :
  isWord "Nakawa" = true /\ isWord "Kampala" = true
  /\ isSpacing "  " = true /\ isSpacing " " = true
  /\ JsString.toLowerCase "At" = "at"
  /\ parseQuery ("Nakawa" ++ "  " ++ "At" ++ " " ++ "Kampala")
     = ["Nakawa"; "Kampala"].
Proof.
  repeat (split; [reflexivity|]).
  exact (parseQuery_separator_word "Nakawa" "  " "At" " " "Kampala"
           eq_refl eq_refl eq_refl eq_refl (or_intror eq_refl)).
Defined.

(** ** Terms are free of separators *)

Module ReparseFacts.
Import JsString Separator.

Lemma whiteSpaceRun_app_inside s x :
  (whiteSpaceRun s < String.length s)%nat ->
  whiteSpaceRun (s ++ x) = whiteSpaceRun s.
Proof.
  induction s as [|c r IH]; simpl; [lia|].
  destruct (isWhiteSpace c); [|reflexivity].
  intros H. rewrite IH by lia. reflexivity.
Qed.

Lemma whiteSpaceRun_app_ge s x :
  (whiteSpaceRun s <= whiteSpaceRun (s ++ x))%nat.
Proof.
  induction s as [|c r IH]; simpl; [lia|].
  destruct (isWhiteSpace c); lia.
Qed.

Lemma matchWord_app w : forall y x,
  matchWord w y = true -> matchWord w (y ++ x) = true.
Proof.
  induction w as [|a w IH]; intros y x; [reflexivity|].
  destruct y as [|b y]; [discriminate|].
  change (String b y ++ x) with (String b (y ++ x)). cbn [matchWord].
  intros H. apply andb_prop in H as [-> H]. now rewrite (IH _ _ H).
Qed.

Lemma drop_app n : forall s x,
  (n <= String.length s)%nat -> drop n (s ++ x) = drop n s ++ x.
Proof.
  induction n as [|n IH]; intros [|c r] x; simpl; try lia;
    try reflexivity.
  intros H. apply IH. lia.
Qed.

Lemma matchSpacedWord_app w s x n :
  w <> EmptyString ->
  matchSpacedWord w s = Some n ->
  exists n', matchSpacedWord w (s ++ x) = Some n'.
Proof.
  intros Hw. unfold matchSpacedWord.
  destruct (0 <? whiteSpaceRun s)%nat eqn:E1; [|discriminate].
  destruct (matchWord w (drop (whiteSpaceRun s) s)) eqn:E2; [|discriminate].
  destruct (0 <? whiteSpaceRun
                   (drop (String.length w) (drop (whiteSpaceRun s) s)))%nat
    eqn:E3; [|discriminate].
  intros _.
  pose proof (SplitFacts.matchWord_length _ _ E2) as Hlen.
  pose proof (SplitFacts.whiteSpaceRun_le s) as Hrun.
  assert (0 < String.length w)%nat as Hwlen
    by (destruct w; [congruence | simpl; lia]).
  rewrite SplitFacts.length_drop in Hlen.
  rewrite (whiteSpaceRun_app_inside s x) by lia.
  rewrite (drop_app _ s x) by lia.
  rewrite (matchWord_app _ _ x E2).
  rewrite (drop_app _ (drop (whiteSpaceRun s) s) x)
    by (rewrite SplitFacts.length_drop; lia).
  apply Nat.ltb_lt in E3.
  pose proof (whiteSpaceRun_app_ge
                (drop (String.length w) (drop (whiteSpaceRun s) s)) x)
    as Hge.
  rewrite E1. rewrite (proj2 (Nat.ltb_lt _ _)) by lia.
  simpl. eauto.
Qed.

(** A match at the head of a string is still there when the string is
    extended. *)
Lemma matchAt_app s x n :
  matchAt s = Some n -> matchAt (s ++ x) <> None.
Proof.
  unfold matchAt.
  destruct (matchPunct s) as [k|] eqn:Ep.
  - intros _. destruct s as [|c r]; [discriminate|].
    change (String c r ++ x) with (String c (r ++ x)).
    simpl in *. destruct (Ascii.eqb c "," || Ascii.eqb c ";");
      discriminate.
  - destruct (matchPunct (s ++ x)); [discriminate|].
    destruct (matchSpacedWord "in" s) as [k|] eqn:Ei.
    + intros _.
      destruct (matchSpacedWord_app "in" s x k ltac:(discriminate) Ei)
        as [n' ->]. discriminate.
    + intros Hat.
      destruct (matchSpacedWord_app "at" s x n ltac:(discriminate) Hat)
        as [n' ->].
      destruct (matchSpacedWord "in" (s ++ x)); discriminate.
Qed.

Lemma snoc_suffix c : forall u p v,
  p ++ String c EmptyString = u ++ v -> v <> EmptyString ->
  exists v0, v = v0 ++ String c EmptyString /\ p = u ++ v0.
Proof.
  induction u as [|x u IH]; intros p v H Hv.
  - exists p. split; [symmetry; exact H | reflexivity].
  - destruct p as [|y p].
    + change (String c EmptyString = String x (u ++ v)) in H.
      injection H as _ H.
      destruct u; destruct v; try discriminate. congruence.
    + change (String y (p ++ String c EmptyString) = String x (u ++ v))
        in H.
      injection H as -> H.
      destruct (IH _ _ H Hv) as (v0 & -> & ->). now exists v0.
Qed.

Lemma noSeparatorIn_snoc p c r :
  noSeparatorIn p (String c r) -> matchAt (String c r) = None ->
  noSeparatorIn (p ++ String c EmptyString) r.
Proof.
  intros Hp Hc u v Huv Hv.
  destruct (snoc_suffix c u p v Huv Hv) as (v0 & -> & ->).
  rewrite IncludesFacts.append_assoc.
  change (String c EmptyString ++ r) with (String c r).
  destruct v0 as [|y v0]; [exact Hc|].
  apply (Hp u (String y v0)); [reflexivity | discriminate].
Qed.

Lemma noSeparatorIn_empty ctx : noSeparatorIn EmptyString ctx.
Proof.
  intros u v H Hv. destruct u; destruct v; try discriminate. congruence.
Qed.

Lemma splitFrom_pieces s : forall skip piece,
  (skip <> 0%nat -> piece = EmptyString) ->
  noSeparatorIn (rev_append piece EmptyString) s ->
  Forall (fun p => exists ctx, noSeparatorIn p ctx)
    (splitFrom skip piece s).
Proof.
  induction s as [|c r IH]; intros skip piece Hskip Hp.
  - simpl. constructor; [eauto | constructor].
  - cbn [splitFrom]. destruct skip as [|k].
    + destruct (matchAt (String c r)) as [n|] eqn:Em.
      * constructor; [eauto|].
        apply IH; [reflexivity | apply noSeparatorIn_empty].
      * apply IH; [congruence|].
        change (rev_append (String c piece) EmptyString)
          with (rev_append piece (String c EmptyString)).
        assert (rev_append piece (String c EmptyString)
                = rev_append piece EmptyString ++ String c EmptyString)
          as -> by (now rewrite WordFacts.rev_append_app).
        now apply noSeparatorIn_snoc.
    + rewrite (Hskip ltac:(discriminate)).
      apply IH; [reflexivity | apply noSeparatorIn_empty].
Qed.

Lemma splitFrom_no_match s : forall piece,
  (forall u v, s = u ++ v -> v <> EmptyString -> matchAt v = None) ->
  splitFrom 0 piece s = [rev_append piece EmptyString ++ s].
Proof.
  induction s as [|c r IH]; intros piece H.
  - simpl. now rewrite WordFacts.rev_append_app.
  - cbn [splitFrom].
    rewrite (H EmptyString (String c r) eq_refl ltac:(discriminate)).
    rewrite IH.
    + simpl. now rewrite !WordFacts.rev_append_app.
    + intros u v -> Hv. apply (H (String c u) v); [reflexivity | exact Hv].
Qed.

End ReparseFacts.

(** X20.  Terms are free of separators: parsing a term that [parseQuery]
    returned gives back that term and nothing else, so no term holds a
    comma, a semicolon or a spaced "in" or "at". *)
Theorem parseQuery_term_reparses query t :
  In t (parseQuery query) -> parseQuery t = [t].
Proof.
  intros H. destruct (ParseFacts.parseQuery_In query t H)
    as (Hne & p & Hp & ->).
  pose proof (ReparseFacts.splitFrom_pieces query 0 EmptyString
                ltac:(congruence)
                (ReparseFacts.noSeparatorIn_empty query)) as Hall.
  rewrite List.Forall_forall in Hall.
  destruct (Hall p Hp) as [ctx Hctx].
  destruct (proj1 (IncludesFacts.includes_iff _ _)
              (TrimFacts.includes_trim p)) as (pre & post & Hdec).
  assert (forall u v, JsString.trim p = u ++ v -> v <> EmptyString ->
                      Separator.matchAt v = None) as Hfree.
  { intros u v Huv Hv.
    destruct (Separator.matchAt v) as [n|] eqn:Em; [|reflexivity].
    exfalso. apply (ReparseFacts.matchAt_app v (post ++ ctx) n Em).
    rewrite <- IncludesFacts.append_assoc.
    apply (Hctx (pre ++ u) (v ++ post)).
    - rewrite Hdec at 1. rewrite Huv.
      now rewrite !IncludesFacts.append_assoc.
    - destruct v; [congruence | discriminate]. }
  unfold parseQuery, Separator.split.
  rewrite (ReparseFacts.splitFrom_no_match _ EmptyString Hfree).
  change (JsString.rev_append EmptyString EmptyString ++ JsString.trim p)
    with (JsString.trim p).
  cbn [List.map]. rewrite TrimFacts.trim_idempotent.
  destruct (JsString.trim p); [congruence | reflexivity].
Qed.

Lemma parseQuery_term_reparses_witness :
  In "Tin at" (parseQuery "Kampala in Tin at, x")
  /\ parseQuery "Tin at" = ["Tin at"].
Proof.
  assert (In "Tin at" (parseQuery "Kampala in Tin at, x")) as H
    by (vm_compute; auto).
  split; [exact H|].
  exact (parseQuery_term_reparses "Kampala in Tin at, x" "Tin at" H).
Defined.
